(** * SMART-on-FHIR EHR launch: a shallow embedding of [LaunchPage.tsx]

    The launch page of the patient dashboard performs an OAuth2
    authorization-code handshake with PKCE across two page loads.  This
    file embeds the functions of the launch page (and the standalone
    launcher of the home page) as executable Rocq definitions and states
    the properties of the launch sequence over them. It also embeds the
    readers of the session the launch leaves behind ([fetchPatientData] of
    the patient page) and the sample-data helpers of [patientData.ts].

    The launch page is embedded twice, both times from the source. The
    first embedding runs a handler from its call to its end in one piece;
    it is the one most properties are stated over. The second (module
    [EventLoop]) keeps every [await] as a point where the handler is
    suspended and other code of the page may run; the first is shown to
    be what the second computes when nothing runs in between.

    Conventions.
    - A JavaScript string is a Rocq [string]; its bytes are read as the
      UTF-8 text of the string, so [TextEncoder.encode] is the list of
      bytes of the string.
    - [string | null] is [option string]; [!x] on such a value is
      [negb (truthy x)].
    - [sessionStorage] is a [gmap string string].
    - [URLSearchParams] is an association list in document order; [get]
      returns the first value of a name.
    - Console output is not observable by the handshake and is left out.
    - The [URL] constructor of the browser and the [MedplumClient]
      constructor of [@medplum/core] are not part of the sources. What
      they answer is a parameter ([Platform]) of every function that calls
      them, and the properties hold whatever they answer. *)

From Stdlib Require Import ZArith List String Ascii Bool Lia.
From Stdlib Require Import Init.Byte.
From stdpp Require Import base option gmap strings list pretty.
Import ListNotations.

Local Open Scope string_scope.
Local Open Scope Z_scope.

(** ** Platform primitives: SHA-256 ([crypto.subtle.digest]) *)

Module SHA256.

Definition wrap32 (x : Z) : Z := x mod 2 ^ 32.
Definition add32 (x y : Z) : Z := wrap32 (x + y).
Definition rotr (n x : Z) : Z :=
  Z.lor (Z.shiftr x n) (wrap32 (Z.shiftl x (32 - n))).
Definition not32 (x : Z) : Z := Z.lxor x (2 ^ 32 - 1).

Definition Ch (x y z : Z) : Z := Z.lxor (Z.land x y) (Z.land (not32 x) z).
Definition Maj (x y z : Z) : Z :=
  Z.lxor (Z.lxor (Z.land x y) (Z.land x z)) (Z.land y z).
Definition bigS0 (x : Z) : Z := Z.lxor (Z.lxor (rotr 2 x) (rotr 13 x)) (rotr 22 x).
Definition bigS1 (x : Z) : Z := Z.lxor (Z.lxor (rotr 6 x) (rotr 11 x)) (rotr 25 x).
Definition smallS0 (x : Z) : Z := Z.lxor (Z.lxor (rotr 7 x) (rotr 18 x)) (Z.shiftr x 3).
Definition smallS1 (x : Z) : Z := Z.lxor (Z.lxor (rotr 17 x) (rotr 19 x)) (Z.shiftr x 10).

(** The constants of FIPS 180-4, computed as the standard defines them:
    the first 32 bits of the fractional parts of the cube roots (round
    constants) and square roots (initial hash) of the first primes. *)
Definition is_prime (n : nat) : bool :=
  forallb (fun d => negb (n mod d =? 0)%nat) (seq 2 (n - 2)).

Definition primes : list Z :=
  Eval vm_compute in map Z.of_nat (List.filter is_prime (seq 2 310)).

Definition cube_root (n : Z) : Z :=
  fold_left (fun r bit => if (r + 2 ^ bit) ^ 3 <=? n then r + 2 ^ bit else r)
            (map Z.of_nat (rev (seq 0 40))) 0.

Definition round_constants : list Z :=
  Eval vm_compute in map (fun p => cube_root (p * 2 ^ 96) mod 2 ^ 32) primes.

Definition initial_words : list Z :=
  Eval vm_compute in map (fun p => Z.sqrt (p * 2 ^ 64) mod 2 ^ 32) (firstn 8 primes).

(** The eight working registers. *)
Record regs : Type := Regs
  { ra : Z; rb : Z; rc : Z; rd : Z; re : Z; rf : Z; rg : Z; rh : Z }.

Definition initial_hash : regs :=
  let h (i : nat) := nth i initial_words 0 in
  Regs (h 0%nat) (h 1%nat) (h 2%nat) (h 3%nat) (h 4%nat) (h 5%nat) (h 6%nat) (h 7%nat).

Definition Z_of_byte (b : byte) : Z := Z.of_N (Byte.to_N b).
Definition byte_of_Z (z : Z) : byte :=
  match Byte.of_N (Z.to_N (z mod 256)) with
  | Some b => b
  | None => x00
  end.

(** Padding: one [0x80] byte, zeros up to 56 mod 64, then the bit length
    on eight big-endian bytes. *)
Definition be_bytes (n : nat) (z : Z) : list Z :=
  map (fun i => Z.shiftr z (8 * Z.of_nat i) mod 256) (rev (seq 0 n)).

Definition pad (msg : list Z) : list Z :=
  let len := Z.of_nat (length msg) in
  msg ++ [128] ++ repeat 0 (Z.to_nat ((55 - len) mod 64)) ++ be_bytes 8 (8 * len).

Fixpoint words_of (bs : list Z) : list Z :=
  match bs with
  | b0 :: b1 :: b2 :: b3 :: rest =>
      (((b0 * 256 + b1) * 256 + b2) * 256 + b3) :: words_of rest
  | _ => []
  end.

Fixpoint blocks_of (fuel : nat) (ws : list Z) : list (list Z) :=
  match fuel, ws with
  | S fuel', _ :: _ => firstn 16 ws :: blocks_of fuel' (skipn 16 ws)
  | _, _ => []
  end.

(** Message schedule; [acc] holds the words computed so far, newest
    first. *)
Fixpoint extend (n : nat) (acc : list Z) : list Z :=
  match n with
  | O => acc
  | S n' =>
      let w := add32 (add32 (add32 (smallS1 (nth 1 acc 0)) (nth 6 acc 0))
                            (smallS0 (nth 14 acc 0))) (nth 15 acc 0) in
      extend n' (w :: acc)
  end.

Definition schedule (block : list Z) : list Z := rev (extend 48 (rev block)).

Definition round (r : regs) (kw : Z * Z) : regs :=
  let t1 := add32 (add32 (add32 (add32 (rh r) (bigS1 (re r)))
                                (Ch (re r) (rf r) (rg r))) (fst kw)) (snd kw) in
  let t2 := add32 (bigS0 (ra r)) (Maj (ra r) (rb r) (rc r)) in
  Regs (add32 t1 t2) (ra r) (rb r) (rc r) (add32 (rd r) t1) (re r) (rf r) (rg r).

Definition compress (h : regs) (block : list Z) : regs :=
  let r := fold_left round (combine round_constants (schedule block)) h in
  Regs (add32 (ra h) (ra r)) (add32 (rb h) (rb r)) (add32 (rc h) (rc r))
       (add32 (rd h) (rd r)) (add32 (re h) (re r)) (add32 (rf h) (rf r))
       (add32 (rg h) (rg r)) (add32 (rh h) (rh r)).

Definition word_bytes (w : Z) : list byte := map byte_of_Z (be_bytes 4 w).

Definition output (h : regs) : list byte :=
  word_bytes (ra h) ++ word_bytes (rb h) ++ word_bytes (rc h) ++ word_bytes (rd h)
  ++ word_bytes (re h) ++ word_bytes (rf h) ++ word_bytes (rg h) ++ word_bytes (rh h).

Definition digest (msg : list byte) : list byte :=
  let ws := words_of (pad (map Z_of_byte msg)) in
  output (fold_left compress (blocks_of (length ws) ws) initial_hash).

End SHA256.

(** ** Platform primitives: [btoa] and character replacement *)

Definition base64_alphabet : string :=
  "ABCDEFGHIJKLMNOPQRSTUVWXYZabcdefghijklmnopqrstuvwxyz0123456789+/".

Definition base64url_alphabet : string :=
  "ABCDEFGHIJKLMNOPQRSTUVWXYZabcdefghijklmnopqrstuvwxyz0123456789-_".

Definition sextet_char (alphabet : string) (i : Z) : ascii :=
  match String.get (Z.to_nat i) alphabet with
  | Some c => c
  | None => "="%char
  end.

(** The four 6-bit groups of a 24-bit quantum. *)
Definition sextet (k : Z) (q : Z) : Z := Z.land (Z.shiftr q (6 * (3 - k))) 63.

Definition quantum (a b c : byte) : Z :=
  Z.lor (Z.lor (Z.shiftl (SHA256.Z_of_byte a) 16) (Z.shiftl (SHA256.Z_of_byte b) 8))
        (SHA256.Z_of_byte c).

(** [btoa(String.fromCharCode(...bytes))]: standard base64 with padding. *)
Fixpoint btoa (bs : list byte) : string :=
  let ch := sextet_char base64_alphabet in
  match bs with
  | [] => ""
  | [a] =>
      let q := quantum a x00 x00 in
      String (ch (sextet 0 q)) (String (ch (sextet 1 q)) "==")
  | [a; b] =>
      let q := quantum a b x00 in
      String (ch (sextet 0 q)) (String (ch (sextet 1 q)) (String (ch (sextet 2 q)) "="))
  | a :: b :: c :: rest =>
      let q := quantum a b c in
      String (ch (sextet 0 q)) (String (ch (sextet 1 q))
        (String (ch (sextet 2 q)) (String (ch (sextet 3 q)) (btoa rest))))
  end.

(** [s.replace(/c/g, r)] for a single literal character [c]. *)
Fixpoint replace_all (c : ascii) (r : string) (s : string) : string :=
  match s with
  | EmptyString => EmptyString
  | String x s' =>
      if Ascii.eqb x c then r ++ replace_all c r s'
      else String x (replace_all c r s')
  end.

(** ** PKCE helper functions *)

(** Entropy handed out by [crypto]: the sixteen bytes behind
    [crypto.randomUUID()] and the byte stream behind
    [crypto.getRandomValues]. *)
Record Entropy : Type := MkEntropy
  { uuid_bytes : nat -> byte;
    random_byte : nat -> byte }.

Definition getRandomValues (e : Entropy) (n : nat) : list byte :=
  map (random_byte e) (seq 0 n).

Definition base64UrlEncode (buffer : list byte) : string :=
  let base64 := btoa buffer in
  replace_all "=" "" (replace_all "/" "_" (replace_all "+" "-" base64)).

Definition generateCodeVerifier (e : Entropy) : string :=
  let array := getRandomValues e 32 in
  base64UrlEncode array.

Definition generateCodeChallenge (verifier : string) : string :=
  let data := list_byte_of_string verifier in
  let hash := SHA256.digest data in
  base64UrlEncode hash.

(** Specification side of the encoding: RFC 4648 section 5 with the
    URL-safe alphabet and the padding left out. *)
Fixpoint base64url_nopad (bs : list byte) : string :=
  let ch := sextet_char base64url_alphabet in
  match bs with
  | [] => ""
  | [a] =>
      let q := quantum a x00 x00 in
      String (ch (sextet 0 q)) (String (ch (sextet 1 q)) "")
  | [a; b] =>
      let q := quantum a b x00 in
      String (ch (sextet 0 q)) (String (ch (sextet 1 q)) (String (ch (sextet 2 q)) ""))
  | a :: b :: c :: rest =>
      let q := quantum a b c in
      String (ch (sextet 0 q)) (String (ch (sextet 1 q))
        (String (ch (sextet 2 q)) (String (ch (sextet 3 q)) (base64url_nopad rest))))
  end.

(** ** Platform primitives: strings, query parameters, URLs *)

(** [!!x] for [x : string | null]. *)
Definition truthy (x : option string) : bool :=
  match x with
  | Some s => negb (String.eqb s "")
  | None => false
  end.

(** Template-literal conversion of a possibly absent value. *)
Definition js_string (absent : string) (x : option string) : string :=
  match x with
  | Some s => s
  | None => absent
  end.

(** [s.includes(needle)]. *)
Fixpoint includes (s needle : string) : bool :=
  String.prefix needle s ||
  match s with
  | EmptyString => false
  | String _ s' => includes s' needle
  end.

(** [parts.join(sep)]. *)
Fixpoint join (sep : string) (parts : list string) : string :=
  match parts with
  | [] => ""
  | [p] => p
  | p :: rest => p ++ sep ++ join sep rest
  end.

Definition URLSearchParams : Type := list (string * string).

Fixpoint params_get (name : string) (params : URLSearchParams) : option string :=
  match params with
  | [] => None
  | (k, v) :: rest => if String.eqb k name then Some v else params_get name rest
  end.

Definition hex_digit (n : Z) : ascii := sextet_char "0123456789abcdef" n.

Definition hex_byte (z : Z) : string :=
  String (hex_digit (Z.shiftr z 4)) (String (hex_digit (Z.land z 15)) "").

(** [crypto.randomUUID()]: sixteen random bytes with the version nibble
    set to 4 and the variant bits to 10, printed 8-4-4-4-12. *)
Definition randomUUID (e : Entropy) : string :=
  let b (i : nat) : Z := SHA256.Z_of_byte (uuid_bytes e i) in
  let b6 := Z.lor (Z.land (b 6%nat) 15) 64 in
  let b8 := Z.lor (Z.land (b 8%nat) 63) 128 in
  hex_byte (b 0%nat) ++ hex_byte (b 1%nat) ++ hex_byte (b 2%nat) ++ hex_byte (b 3%nat) ++ "-"
  ++ hex_byte (b 4%nat) ++ hex_byte (b 5%nat) ++ "-"
  ++ hex_byte b6 ++ hex_byte (b 7%nat) ++ "-"
  ++ hex_byte b8 ++ hex_byte (b 9%nat) ++ "-"
  ++ hex_byte (b 10%nat) ++ hex_byte (b 11%nat) ++ hex_byte (b 12%nat)
  ++ hex_byte (b 13%nat) ++ hex_byte (b 14%nat) ++ hex_byte (b 15%nat).

(** A reader of plain hierarchical URLs, [scheme://host[:port][/path]]:
    whether the text has this form and, if so, the lower-cased host of
    the authority without user info and port. It is the URL parser of the
    scenarios further down, whose issuers and endpoints all have that
    form; the launch page itself is embedded over an arbitrary parser
    ([url_hostname] of [Platform]). *)
Module URL.

Fixpoint split_scheme (s : string) : option (string * string) :=
  match s with
  | EmptyString => None
  | String c s' =>
      if String.prefix "://" s then Some (EmptyString, String.substring 3 (String.length s) s)
      else match split_scheme s' with
           | Some (scheme, rest) => Some (String c scheme, rest)
           | None => None
           end
  end.

Definition is_alpha (c : ascii) : bool :=
  let n := nat_of_ascii c in
  ((65 <=? n) && (n <=? 90) || (97 <=? n) && (n <=? 122))%nat.

Definition is_scheme_char (c : ascii) : bool :=
  let n := nat_of_ascii c in
  (is_alpha c || (48 <=? n) && (n <=? 57) || (n =? 43) || (n =? 45) || (n =? 46))%nat.

Fixpoint all_chars (p : ascii -> bool) (s : string) : bool :=
  match s with
  | EmptyString => true
  | String c s' => p c && all_chars p s'
  end.

Definition valid_scheme (s : string) : bool :=
  match s with
  | EmptyString => false
  | String c s' => is_alpha c && all_chars is_scheme_char s'
  end.

Fixpoint take_until (stop : ascii -> bool) (s : string) : string :=
  match s with
  | EmptyString => EmptyString
  | String c s' => if stop c then EmptyString else String c (take_until stop s')
  end.

(** The text after the last [@], or the whole text. *)
Fixpoint after_userinfo (s : string) : string :=
  match s with
  | EmptyString => EmptyString
  | String c s' =>
      if Ascii.eqb c "@" && negb (includes s' "@") then s'
      else if includes s "@" then after_userinfo s'
      else s
  end.

Definition lower (c : ascii) : ascii :=
  let n := nat_of_ascii c in
  if ((65 <=? n) && (n <=? 90))%nat then ascii_of_nat (n + 32) else c.

Fixpoint lowercase (s : string) : string :=
  match s with
  | EmptyString => EmptyString
  | String c s' => String (lower c) (lowercase s')
  end.

Definition ends_authority (c : ascii) : bool :=
  Ascii.eqb c "/" || Ascii.eqb c "?" || Ascii.eqb c "#".

(** The host of a plain URL; [None] for any other text. *)
Definition hostname (s : string) : option string :=
  match split_scheme s with
  | Some (scheme, rest) =>
      if valid_scheme scheme then
        let authority := after_userinfo (take_until ends_authority rest) in
        let host := lowercase (take_until (Ascii.eqb ":") authority) in
        if String.eqb host "" then None else Some host
      else None
  | None => None
  end.

End URL.

(** ** [config.ts] *)

Definition MEDPLUM_CLIENT_ID : string := "d68a6a98-d5ea-4e1b-9dff-ae215249179f".
Definition SMART_HEALTH_IT_CLIENT_ID : string := "your-client-id".
Definition MEDPLUM_AUTH_URL : string := "https://api.medplum.com/oauth2/authorize".
Definition SMART_HEALTH_IT_AUTH_URL : string := "https://launch.smarthealthit.org/v/r4/fhir".
Definition FHIR_SCOPE : string := "launch/patient patient/*.read".

(** ** Errors, network, and the state of a page *)

(** One constructor per [throw] site of the launch page; [PlatformError]
    stands for what the platform and the libraries raise themselves (an
    invalid URL, a rejected fetch, a body that is not JSON, a member read
    on [null], a client the Medplum library refuses). *)
Inductive Error : Type :=
| OAuthProviderError (error : string) (errorDescription : option string)
| MissingLaunchParameters
| ConfigurationUnavailable (configUrl : string) (status : nat) (statusText : string)
| MissingParameter (missing : list string)
| StateMismatch
| MissingIssuer
| ExpiredSession
| TokenExchangeFailed (status : nat) (errorText : string)
| PlatformError (msg : string).

(** [err.message], as shown to the user by [setError]. *)
Definition message (e : Error) : string :=
  match e with
  | OAuthProviderError error errorDescription =>
      "OAuth error: " ++ error ++
      (if truthy errorDescription then " - " ++ js_string "" errorDescription else "")
  | MissingLaunchParameters => "Missing iss parameter for EHR launch"
  | ConfigurationUnavailable configUrl status statusText =>
      "Failed to fetch SMART configuration from " ++ configUrl ++ ": "
      ++ pretty status ++ " " ++ statusText
  | MissingParameter missing =>
      "Missing required parameters in authorization response: " ++ join ", " missing
  | StateMismatch =>
      "State parameter mismatch - possible session expired. Please try launching the app again."
  | MissingIssuer => "No issuer found in session storage"
  | ExpiredSession => "Missing code verifier - session may have expired"
  | TokenExchangeFailed status errorText =>
      "Failed to get access token: " ++ pretty status ++ " " ++ errorText
  | PlatformError msg => msg
  end.

Inductive Request : Type :=
| GET (url : string)
| POST (url : string) (body : URLSearchParams).

(** A parsed JSON body as far as the pages look into it. The bodies
    considered are [null] and the values whose members, where the pages
    read them (the two endpoints, [access_token], [patient]), are strings
    or absent; such a value is given by its string members. (A body that
    is a number, a string, a boolean or an array has none of these
    members, like the empty object.) *)
Inductive Json : Type :=
| JNull
| JObject (members : gmap string string).

(** [value.name]: a [TypeError] on [null] (with the message of V8),
    [undefined] for a member the value does not have. *)
Definition member (value : Json) (name : string) : Error + option string :=
  match value with
  | JNull => inl (PlatformError ("Cannot read properties of null (reading '" ++ name ++ "')"))
  | JObject members => inr (members !! name)
  end.

(** A response; [json] is the parsed body, [None] when [response.json()]
    rejects. *)
Record Response : Type := MkResponse
  { ok : bool;
    status : nat;
    statusText : string;
    text : string;
    json : option Json }.

(** What a page does that the outside can see. [LocationAssign url search]
    is an assignment to [window.location.href] of [url] with the query
    made of the entries [search], kept as entries rather than in their
    serialised form. *)
Inductive Effect : Type :=
| Fetch (req : Request)
| Navigate (path : string)
| LocationAssign (url : string) (search : URLSearchParams).

(** A Medplum client, identified with the options it was built from;
    [accessToken] is [None] when the option is [undefined]. *)
Record MedplumClient : Type := MkMedplumClient
  { baseUrl : string; fhirUrlPath : string; accessToken : option string }.

(** What the pages call without it being part of the sources:
    [url_hostname s] is [new URL(s).hostname], [None] when the constructor
    throws; [medplum_rejects options] is the message of the error that
    [new MedplumClient(options)] throws, [None] when it builds the client
    (the library refuses, among others, a base URL that does not start
    with [http]). *)
Record Platform : Type := MkPlatform
  { url_hostname : string -> option string;
    medplum_rejects : MedplumClient -> option string }.

(** [new MedplumClient(options)]. *)
Definition new_MedplumClient (pf : Platform) (options : MedplumClient)
  : Error + MedplumClient :=
  match medplum_rejects pf options with
  | Some msg => inl (PlatformError msg)
  | None => inr options
  end.

(** What a page load is given: its own URL, the network ([None] is a
    rejected fetch) and the random source. *)
Record Env : Type := MkEnv
  { location_search : URLSearchParams;
    location_origin : string;
    network : Request -> option Response;
    entropy : Entropy }.

(** [sessionStorage] survives navigation; the other fields belong to one
    mounted [LaunchPage]: the [hasInitialized] ref, the [error] state,
    the client installed in the Medplum context, and the effects so far,
    oldest first. *)
Record World : Type := MkWorld
  { sessionStorage : gmap string string;
    hasInitialized : bool;
    error : option string;
    medplum : option MedplumClient;
    trace : list Effect }.

(** A page load mounts a fresh component over the stored session. *)
Definition pageLoad (storage : gmap string string) : World :=
  MkWorld storage false None None [].

(** *** The monad of the launch page *)

Inductive Outcome (A : Type) : Type :=
| Returned (a : A)
| Thrown (e : Error)
| Pending.
Arguments Returned {A} a.
Arguments Thrown {A} e.
Arguments Pending {A}.

Definition M (A : Type) : Type := World -> Outcome A * World.

Definition ret {A} (a : A) : M A := fun w => (Returned a, w).
Definition throw {A} (e : Error) : M A := fun w => (Thrown e, w).
Definition never {A} : M A := fun w => (Pending, w).
Definition bind {A B} (m : M A) (k : A -> M B) : M B :=
  fun w =>
    match m w with
    | (Returned a, w') => k a w'
    | (Thrown e, w') => (Thrown e, w')
    | (Pending, w') => (Pending, w')
    end.
Definition catch {A} (m : M A) (handler : Error -> M A) : M A :=
  fun w =>
    match m w with
    | (Thrown e, w') => handler e w'
    | r => r
    end.
Definition lift {A} (r : Error + A) : M A :=
  match r with
  | inl e => throw e
  | inr a => ret a
  end.

Declare Scope launch_scope.
Delimit Scope launch_scope with launch.
Notation "x <- m ;; k" := (bind m (fun x => k))
  (at level 100, m at next level, right associativity) : launch_scope.
Notation "m ;;; k" := (bind m (fun _ => k))
  (at level 100, right associativity) : launch_scope.
Local Open Scope launch_scope.

Definition getItem (key : string) : M (option string) :=
  fun w => (Returned (sessionStorage w !! key), w).
Definition setItem (key value : string) : M unit :=
  fun w => (Returned tt,
            MkWorld (<[key := value]> (sessionStorage w))
                    (hasInitialized w) (error w) (medplum w) (trace w)).
Definition removeItem (key : string) : M unit :=
  fun w => (Returned tt,
            MkWorld (delete key (sessionStorage w))
                    (hasInitialized w) (error w) (medplum w) (trace w)).
Definition emit (e : Effect) : M unit :=
  fun w => (Returned tt,
            MkWorld (sessionStorage w) (hasInitialized w) (error w) (medplum w)
                    (trace w ++ [e])%list).
Definition setError (msg : string) : M unit :=
  fun w => (Returned tt,
            MkWorld (sessionStorage w) (hasInitialized w) (Some msg) (medplum w) (trace w)).
Definition setInitialized : M unit :=
  fun w => (Returned tt,
            MkWorld (sessionStorage w) true (error w) (medplum w) (trace w)).
Definition setMedplum (c : MedplumClient) : M unit :=
  fun w => (Returned tt,
            MkWorld (sessionStorage w) (hasInitialized w) (error w) (Some c) (trace w)).

Definition fetch (env : Env) (req : Request) : M Response :=
  emit (Fetch req) ;;;
  match network env req with
  | Some r => ret r
  | None => throw (PlatformError "Failed to fetch")
  end.

(** [response.json()]. *)
Definition response_json (r : Response) : M Json :=
  match json r with
  | Some o => ret o
  | None => throw (PlatformError "Unexpected token in JSON")
  end.

(** ** [LaunchPage.tsx] *)

Definition getClientId (pf : Platform) (params : URLSearchParams) (iss : string)
  : Error + string :=
  let clientId := params_get "client_id" params in
  if truthy clientId then inr (js_string "" clientId)
  else
    match url_hostname pf iss with
    | None => inl (PlatformError "Invalid URL")
    | Some hostname =>
        let allowedHosts := ["smarthealthit.org"] in
        if existsb (String.eqb hostname) allowedHosts
        then inr SMART_HEALTH_IT_CLIENT_ID
        else inr MEDPLUM_CLIENT_ID
    end.

Definition medplum_configuration : gmap string string :=
  <["authorization_endpoint" := "https://api.medplum.com/oauth2/authorize"]>
    (<["token_endpoint" := "https://api.medplum.com/oauth2/token"]> ∅).

Definition fetchSmartConfiguration (env : Env) (iss : string) : M Json :=
  if includes iss "medplum.com" then ret (JObject medplum_configuration)
  else
    let configUrl := iss ++ "/.well-known/smart-configuration" in
    response <- fetch env (GET configUrl) ;;
    if negb (ok response)
    then throw (ConfigurationUnavailable configUrl (status response) (statusText response))
    else response_json response.

Definition initiateEhrLaunch (pf : Platform) (env : Env) (params : URLSearchParams)
  : M unit :=
  let iss := params_get "iss" params in
  let launch := params_get "launch" params in
  if negb (truthy iss) then throw MissingLaunchParameters
  else
    let iss := js_string "" iss in
    setItem "smart_iss" iss ;;;
    config <- fetchSmartConfiguration env iss ;;
    let state := randomUUID (entropy env) in
    setItem "smart_state" state ;;;
    let codeVerifier := generateCodeVerifier (entropy env) in
    let codeChallenge := generateCodeChallenge codeVerifier in
    setItem "smart_code_verifier" codeVerifier ;;;
    clientId <- lift (getClientId pf params iss) ;;
    let authParams : URLSearchParams :=
      [ ("response_type", "code");
        ("client_id", clientId);
        ("scope", FHIR_SCOPE);
        ("redirect_uri", location_origin env ++ "/launch");
        ("state", state);
        ("aud", iss);
        ("launch", js_string "null" launch);
        ("code_challenge", codeChallenge);
        ("code_challenge_method", "S256") ] in
    authorization_endpoint <- lift (member config "authorization_endpoint") ;;
    let endpoint := js_string "undefined" authorization_endpoint in
    match url_hostname pf endpoint with
    | None => throw (PlatformError "Invalid URL")
    | Some _ =>
        emit (LocationAssign endpoint authParams) ;;;
        never
    end.

Definition validateAuthResponse (params : URLSearchParams) : M unit :=
  let code := params_get "code" params in
  let state := params_get "state" params in
  storedState <- getItem "smart_state" ;;
  let missing :=
    ((if negb (truthy code) then ["code"] else [])
     ++ (if negb (truthy state) then ["state"] else []))%list in
  if (0 <? length missing)%nat then throw (MissingParameter missing)
  else if negb (bool_decide (state = storedState)) then throw StateMismatch
  else ret tt.

(** [config.token_endpoint] is read a first time for the [console.log]
    that precedes the [fetch]; on a [null] configuration that read
    throws. *)
Definition exchangeCodeForToken (env : Env) (params : URLSearchParams)
    (config : Json) (clientId : string) : M Json :=
  let code := params_get "code" params in
  codeVerifier <- getItem "smart_code_verifier" ;;
  if negb (truthy codeVerifier) then throw ExpiredSession
  else
    let tokenBody : URLSearchParams :=
      [ ("grant_type", "authorization_code");
        ("code", js_string "null" code);
        ("redirect_uri", location_origin env ++ "/launch");
        ("client_id", clientId);
        ("code_verifier", js_string "" codeVerifier) ] in
    token_endpoint <- lift (member config "token_endpoint") ;;
    tokenResponse <- fetch env (POST (js_string "undefined" token_endpoint) tokenBody) ;;
    if negb (ok tokenResponse)
    then throw (TokenExchangeFailed (status tokenResponse) (text tokenResponse))
    else response_json tokenResponse.

Definition setupMedplumClient (pf : Platform) (tokenData : Json) (iss : string) : M unit :=
  patient <- lift (member tokenData "patient") ;;
  setItem "smart_patient" (js_string "undefined" patient) ;;;
  access_token <- lift (member tokenData "access_token") ;;
  setItem "smart_access_token" (js_string "undefined" access_token) ;;;
  setItem "smart_base_url" iss ;;;
  accessToken <- lift (member tokenData "access_token") ;;
  medplum <- lift (new_MedplumClient pf (MkMedplumClient iss "" accessToken)) ;;
  setMedplum medplum.

(** The body of the [try] block of [handleSmartLaunch]. *)
Definition handleSmartLaunch_body (pf : Platform) (env : Env) : M unit :=
  let params := location_search env in
  let error := params_get "error" params in
  let errorDescription := params_get "error_description" params in
  if truthy error then throw (OAuthProviderError (js_string "" error) errorDescription)
  else
    let launch := params_get "launch" params in
    let code := params_get "code" params in
    if negb (truthy launch) && negb (truthy code) then emit (Navigate "/")
    else
      existingToken <- getItem "smart_access_token" ;;
      existingPatient <- getItem "smart_patient" ;;
      if truthy existingToken && truthy existingPatient
         && negb (truthy launch) && negb (truthy code)
      then emit (Navigate "/patient")
      else if truthy launch then initiateEhrLaunch pf env params
      else
        validateAuthResponse params ;;;
        iss <- getItem "smart_iss" ;;
        if negb (truthy iss) then throw MissingIssuer
        else
          let iss := js_string "" iss in
          config <- fetchSmartConfiguration env iss ;;
          clientId <- lift (getClientId pf params iss) ;;
          tokenData <- exchangeCodeForToken env params config clientId ;;
          removeItem "smart_state" ;;;
          removeItem "smart_iss" ;;;
          removeItem "smart_code_verifier" ;;;
          setupMedplumClient pf tokenData iss ;;;
          setInitialized ;;;
          emit (Navigate "/patient").

Definition handleSmartLaunch (pf : Platform) (env : Env) : M unit :=
  catch (handleSmartLaunch_body pf env) (fun err => setError (message err)).

(** One run of the effect of [LaunchPage] with nothing else of the page
    running before the handler is through: the one-shot guard, then the
    handler to its end (or to the redirect). The handler catches
    everything it throws, so the [.catch] at the call site has nothing to
    do. What happens when the effect runs again while the handler is
    suspended is the subject of [EventLoop] below. *)
Definition launchEffect (pf : Platform) (env : Env) (w : World) : World :=
  if hasInitialized w then w
  else snd ((setInitialized ;;; handleSmartLaunch pf env) w).

(** ** [LaunchPage.tsx], with its [await]s

    An [async] function runs at once up to its first [await] and hands
    back a promise; the rest runs later, piece by piece, each piece from
    one [await] to the next without interruption. Between two pieces
    other code of the page may run: a piece of another handler, or the
    effect once more. *)

(** A promise of the page's own code: at its end (with its outcome,
    [Pending] for a promise that never settles), or suspended at an
    [await] with the piece that runs when it is resumed. *)
#[warnings="-register-all"] Inductive Promise (A : Type) : Type :=
| Settled (o : Outcome A)
| Awaiting (resume : World -> Promise A * World).
Arguments Settled {A} o.
Arguments Awaiting {A} resume.

(** A call of an [async] function: the piece that runs at once, and the
    promise handed back. *)
Definition Async (A : Type) : Type := World -> Promise A * World.

(** Code without an [await] in it. *)
Definition sync {A} (m : M A) : Async A :=
  fun w => let (o, w') := m w in (Settled o, w').

(** What awaits [t] goes on in a piece of its own, after [t] has
    settled. *)
Fixpoint settle_later {A} (t : Promise A) : Promise A :=
  match t with
  | Settled o => Awaiting (fun w => (Settled o, w))
  | Awaiting resume =>
      Awaiting (fun w => let (t', w') := resume w in (settle_later t', w'))
  end.

(** [await p]: the call behind [p] runs its first piece at once; the
    caller is suspended until [p] has settled. *)
Definition await {A} (p : Async A) : Async A :=
  fun w => let (t, w') := p w in (settle_later t, w').

(** Sequencing: [k] starts in the piece in which [t] settles. *)
Fixpoint and_then {A B} (t : Promise A) (k : A -> Async B) (w : World)
  : Promise B * World :=
  match t with
  | Settled (Returned a) => k a w
  | Settled (Thrown e) => (Settled (Thrown e), w)
  | Settled Pending => (Settled Pending, w)
  | Awaiting resume =>
      (Awaiting (fun w1 => let (t', w2) := resume w1 in and_then t' k w2), w)
  end.

Definition abind {A B} (c : Async A) (k : A -> Async B) : Async B :=
  fun w => let (t, w') := c w in and_then t k w'.

(** [try { ... } catch (err) { ... }] around code with [await]s: the
    handler runs in the piece in which the error is thrown. *)
Fixpoint rescue {A} (t : Promise A) (handler : Error -> Async A) (w : World)
  : Promise A * World :=
  match t with
  | Settled (Thrown e) => handler e w
  | Settled o => (Settled o, w)
  | Awaiting resume =>
      (Awaiting (fun w1 => let (t', w2) := resume w1 in rescue t' handler w2), w)
  end.

Definition acatch {A} (c : Async A) (handler : Error -> Async A) : Async A :=
  fun w => let (t, w') := c w in rescue t handler w'.

(** A promise run to its end with nothing in between. *)
Fixpoint finish {A} (t : Promise A) (w : World) : Outcome A * World :=
  match t with
  | Settled o => (o, w)
  | Awaiting resume => let (t', w') := resume w in finish t' w'
  end.

Definition run_through {A} (c : Async A) : M A :=
  fun w => let (t, w') := c w in finish t w'.

Definition is_settled {A} (t : Promise A) : bool :=
  match t with
  | Settled _ => true
  | Awaiting _ => false
  end.

Declare Scope async_scope.
Delimit Scope async_scope with async.
Notation "x <- c ;; k" := (abind c (fun x => k))
  (at level 100, c at next level, right associativity) : async_scope.
Notation "c ;;; k" := (abind c (fun _ => k))
  (at level 100, right associativity) : async_scope.

Module EventLoop.

Definition generateCodeChallenge (verifier : string) : Async string :=
  (let data := list_byte_of_string verifier in
   hash <- await (sync (ret (SHA256.digest data))) ;;
   sync (ret (base64UrlEncode hash)))%async.

Definition fetchSmartConfiguration (env : Env) (iss : string) : Async Json :=
  (if includes iss "medplum.com" then sync (ret (JObject medplum_configuration))
   else
     let configUrl := iss ++ "/.well-known/smart-configuration" in
     response <- await (sync (fetch env (GET configUrl))) ;;
     if negb (ok response)
     then sync (throw (ConfigurationUnavailable configUrl (status response)
                         (statusText response)))
     else sync (response_json response))%async.

Definition initiateEhrLaunch (pf : Platform) (env : Env) (params : URLSearchParams)
  : Async unit :=
  (let iss := params_get "iss" params in
   let launch := params_get "launch" params in
   if negb (truthy iss) then sync (throw MissingLaunchParameters)
   else
     let iss := js_string "" iss in
     sync (setItem "smart_iss" iss) ;;;
     config <- await (fetchSmartConfiguration env iss) ;;
     let state := randomUUID (entropy env) in
     sync (setItem "smart_state" state) ;;;
     let codeVerifier := generateCodeVerifier (entropy env) in
     codeChallenge <- await (generateCodeChallenge codeVerifier) ;;
     sync (setItem "smart_code_verifier" codeVerifier) ;;;
     clientId <- sync (lift (getClientId pf params iss)) ;;
     let authParams : URLSearchParams :=
       [ ("response_type", "code");
         ("client_id", clientId);
         ("scope", FHIR_SCOPE);
         ("redirect_uri", location_origin env ++ "/launch");
         ("state", state);
         ("aud", iss);
         ("launch", js_string "null" launch);
         ("code_challenge", codeChallenge);
         ("code_challenge_method", "S256") ] in
     authorization_endpoint <- sync (lift (member config "authorization_endpoint")) ;;
     let endpoint := js_string "undefined" authorization_endpoint in
     match url_hostname pf endpoint with
     | None => sync (throw (PlatformError "Invalid URL"))
     | Some _ =>
         sync (emit (LocationAssign endpoint authParams)) ;;;
         sync never
     end)%async.

Definition exchangeCodeForToken (env : Env) (params : URLSearchParams)
    (config : Json) (clientId : string) : Async Json :=
  (let code := params_get "code" params in
   codeVerifier <- sync (getItem "smart_code_verifier") ;;
   if negb (truthy codeVerifier) then sync (throw ExpiredSession)
   else
     let tokenBody : URLSearchParams :=
       [ ("grant_type", "authorization_code");
         ("code", js_string "null" code);
         ("redirect_uri", location_origin env ++ "/launch");
         ("client_id", clientId);
         ("code_verifier", js_string "" codeVerifier) ] in
     token_endpoint <- sync (lift (member config "token_endpoint")) ;;
     tokenResponse <-
       await (sync (fetch env (POST (js_string "undefined" token_endpoint) tokenBody))) ;;
     if negb (ok tokenResponse)
     then
       errorText <- await (sync (ret (text tokenResponse))) ;;
       sync (throw (TokenExchangeFailed (status tokenResponse) errorText))
     else sync (response_json tokenResponse))%async.

(** The body of the [try] block of [handleSmartLaunch]. *)
Definition handleSmartLaunch_body (pf : Platform) (env : Env) : Async unit :=
  (let params := location_search env in
   let error := params_get "error" params in
   let errorDescription := params_get "error_description" params in
   if truthy error
   then sync (throw (OAuthProviderError (js_string "" error) errorDescription))
   else
     let launch := params_get "launch" params in
     let code := params_get "code" params in
     if negb (truthy launch) && negb (truthy code) then sync (emit (Navigate "/"))
     else
       existingToken <- sync (getItem "smart_access_token") ;;
       existingPatient <- sync (getItem "smart_patient") ;;
       if truthy existingToken && truthy existingPatient
          && negb (truthy launch) && negb (truthy code)
       then sync (emit (Navigate "/patient"))
       else if truthy launch then await (initiateEhrLaunch pf env params)
       else
         sync (validateAuthResponse params) ;;;
         iss <- sync (getItem "smart_iss") ;;
         if negb (truthy iss) then sync (throw MissingIssuer)
         else
           let iss := js_string "" iss in
           config <- await (fetchSmartConfiguration env iss) ;;
           clientId <- sync (lift (getClientId pf params iss)) ;;
           tokenData <- await (exchangeCodeForToken env params config clientId) ;;
           sync (removeItem "smart_state") ;;;
           sync (removeItem "smart_iss") ;;;
           sync (removeItem "smart_code_verifier") ;;;
           sync (setupMedplumClient pf tokenData iss) ;;;
           sync setInitialized ;;;
           sync (emit (Navigate "/patient")))%async.

Definition handleSmartLaunch (pf : Platform) (env : Env) : Async unit :=
  acatch (handleSmartLaunch_body pf env) (fun err => sync (setError (message err))).

(** One mounted [LaunchPage] between two turns of the event loop: its
    world, and the handlers started so far, each as far as it has come. *)
Record Mounted : Type := MkMounted
  { world : World;
    handlers : list (Promise unit) }.

Definition mount (storage : gmap string string) : Mounted :=
  MkMounted (pageLoad storage) [].

(** The effect of [LaunchPage]: nothing when the guard is set; otherwise
    the guard is set and the handler is called, which runs its first
    piece; its promise, with the [.catch] attached, is left to the event
    loop. *)
Definition launchEffect (pf : Platform) (env : Env) (p : Mounted) : Mounted :=
  if hasInitialized (world p) then p
  else
    let (_, w1) := setInitialized (world p) in
    let (promise, w2) :=
      acatch (await (handleSmartLaunch pf env))
             (fun err => sync (setError (message err))) w1 in
    MkMounted w2 (handlers p ++ [promise]).

(** What can happen next on the page: React runs the effect (the second
    run of Strict Mode, or a change of its dependencies), or one of the
    suspended handlers is resumed and runs its next piece. *)
Inductive Turn : Type :=
| RunEffect
| Resume (i : nat).

Definition resume (i : nat) (p : Mounted) : Mounted :=
  match handlers p !! i with
  | Some (Awaiting piece) =>
      let (t, w) := piece (world p) in MkMounted w (<[i := t]> (handlers p))
  | _ => p
  end.

Definition turn (pf : Platform) (env : Env) (p : Mounted) (t : Turn) : Mounted :=
  match t with
  | RunEffect => launchEffect pf env p
  | Resume i => resume i p
  end.

Definition turns (pf : Platform) (env : Env) (ts : list Turn) (p : Mounted) : Mounted :=
  fold_left (turn pf env) ts p.

(** No handler has anything left to run. *)
Definition quiet (p : Mounted) : bool := forallb is_settled (handlers p).

End EventLoop.

(** ** [HomePage.tsx]: the standalone launcher *)

Definition SmartLaunch_handleClick (env : Env) (clientId iss : string) : M unit :=
  let params : URLSearchParams :=
    [ ("response_type", "code");
      ("client_id", clientId);
      ("scope", FHIR_SCOPE);
      ("redirect_uri", location_origin env ++ "/launch");
      ("state", randomUUID (entropy env));
      ("aud", iss) ] in
  emit (LocationAssign iss params).

(** ** Observations and reasoning principle *)

Definition is_token_post (e : Effect) : bool :=
  match e with
  | Fetch (POST _ _) => true
  | _ => false
  end.

(** The number of token-exchange calls in a trace. *)
Definition token_posts (t : list Effect) : nat := length (List.filter is_token_post t).

(** The [client_id] of every authorization redirect of a trace. *)
Fixpoint redirect_client_ids (t : list Effect) : list (option string) :=
  match t with
  | [] => []
  | LocationAssign _ search :: t' => params_get "client_id" search :: redirect_client_ids t'
  | _ :: t' => redirect_client_ids t'
  end.

(** The [client_id] of every token-exchange body of a trace. *)
Fixpoint post_client_ids (t : list Effect) : list (option string) :=
  match t with
  | [] => []
  | Fetch (POST _ body) :: t' => params_get "client_id" body :: post_client_ids t'
  | _ :: t' => post_client_ids t'
  end.

(** [s] has an occurrence of the character [c]. *)
Fixpoint has_char (c : ascii) (s : string) : bool :=
  match s with
  | EmptyString => false
  | String x s' => Ascii.eqb x c || has_char c s'
  end.

Definition is_base64url_char (c : ascii) : bool :=
  let n := nat_of_ascii c in
  (URL.is_alpha c || (48 <=? n) && (n <=? 57) || (n =? 45) || (n =? 95))%nat.

(** The three replacements of [base64UrlEncode], as one function. *)
Definition url_safe (s : string) : string :=
  replace_all "=" "" (replace_all "/" "_" (replace_all "+" "-" s)).

(** Following the words of the specification, not the code: an issuer is
    recognised by its host when the host is [medplum.com] or lies under
    that domain. *)
Definition spec_recognized_host (host : string) : bool :=
  String.eqb host "medplum.com"
  || String.eqb (String.substring (String.length host - 12) 12 host) ".medplum.com".

(** Weakest precondition of a computation of the launch page: [Q] holds
    of the outcome and final world of [m] started in [w]. *)
Definition wp {A} (m : M A) (Q : Outcome A -> World -> Prop) (w : World) : Prop :=
  Q (fst (m w)) (snd (m w)).

(** From one world to a later one of the same mounted page: a set guard
    stays set and the trace only grows. *)
Definition later (w w' : World) : Prop :=
  (hasInitialized w = true -> hasInitialized w' = true)
  /\ trace w `prefix_of` trace w'.

(** Every piece a promise still has to run takes a world to a [later]
    one. *)
Fixpoint moves_on {A} (t : Promise A) : Prop :=
  match t with
  | Settled _ => True
  | Awaiting resume =>
      forall w, let (t', w') := resume w in later w w' /\ moves_on t'
  end.

(** A call whose first piece, and every piece after it, moves on. *)
Definition proceeds {A} (c : Async A) : Prop :=
  forall w, let (t, w') := c w in later w w' /\ moves_on t.

(** The issuer's configuration can be obtained: the issuer is the
    built-in one, or its discovery document is served as JSON. *)
Definition configuration_resolves (env : Env) (iss : string) : bool :=
  includes iss "medplum.com"
  || match network env (GET (iss ++ "/.well-known/smart-configuration")) with
     | Some r => ok r && match json r with Some _ => true | None => false end
     | None => false
     end.

(** The same, with a configuration that has members (it is not [null]),
    so that its [token_endpoint] can be read. *)
Definition configuration_has_members (env : Env) (iss : string) : bool :=
  includes iss "medplum.com"
  || match network env (GET (iss ++ "/.well-known/smart-configuration")) with
     | Some r => ok r && match json r with Some (JObject _) => true | _ => false end
     | None => false
     end.

(** ** Scenarios *)

Definition no_network : Request -> option Response := fun _ => None.
Definition zero_entropy : Entropy := MkEntropy (fun _ => x00) (fun _ => x00).
Definition app_origin : string := "https://app.example.org".

Definition json_response (members : list (string * string)) : Response :=
  MkResponse true 200 "OK" "" (Some (JObject (list_to_map members))).

(** The platform of the scenarios: plain URLs, and a Medplum library that
    refuses a base URL that does not start with [http]. *)
Definition browser : Platform :=
  MkPlatform URL.hostname
    (fun options =>
       if String.prefix "http" (baseUrl options) then None
       else Some "Base URL must start with http or https").

(** An EHR at [https://ehr.example.org] with a discovery document and a
    token endpoint that answers every exchange with [tok1]/[pat1]. *)
Definition ehr_network (req : Request) : option Response :=
  match req with
  | GET url =>
      if String.eqb url "https://ehr.example.org/.well-known/smart-configuration"
      then Some (json_response
                   [ ("authorization_endpoint", "https://ehr.example.org/authorize");
                     ("token_endpoint", "https://ehr.example.org/token") ])
      else None
  | POST url _ =>
      if String.eqb url "https://ehr.example.org/token"
      then Some (json_response [("access_token", "tok1"); ("patient", "pat1")])
      else None
  end.

(** An EHR whose token endpoint answers every exchange with success and
    the given body. *)
Definition token_answer (body : Json) (req : Request) : option Response :=
  match req with
  | GET _ => Some (json_response [("token_endpoint", "https://ehr.example.org/token")])
  | POST _ _ => Some (MkResponse true 200 "OK" "" (Some body))
  end.

(** A discovery endpoint that answers with an empty JSON object. *)
Definition empty_discovery (req : Request) : option Response :=
  Some (json_response []).

(** A store left behind by an initiation against the EHR. *)
Definition in_flight_store : gmap string string :=
  <["smart_iss" := "https://ehr.example.org"]>
    (<["smart_state" := "expected-state"]>
       (<["smart_code_verifier" := "stored-verifier"]> ∅)).

(** A store holding a finished session. *)
Definition session_store : gmap string string :=
  <["smart_access_token" := "tok1"]> (<["smart_patient" := "pat1"]> ∅).

Definition page (search : URLSearchParams) (net : Request -> option Response) : Env :=
  MkEnv search app_origin net zero_entropy.

(** ** Further observations of a trace *)

(** The kind of an effect: discovery GET, token POST, in-app navigation,
    full-page redirect. *)
Inductive EffectKind : Type := KGet | KPost | KNavigate | KRedirect.

Definition kind (e : Effect) : EffectKind :=
  match e with
  | Fetch (GET _) => KGet
  | Fetch (POST _ _) => KPost
  | Navigate _ => KNavigate
  | LocationAssign _ _ => KRedirect
  end.

(** The paths handed to [navigate], in order. *)
Fixpoint navigations (t : list Effect) : list string :=
  match t with
  | [] => []
  | Navigate path :: t' => path :: navigations t'
  | _ :: t' => navigations t'
  end.

(** ** Reading the encoding back

    The launch page never decodes; the decoder is here to state that
    [base64UrlEncode] loses nothing. *)

Definition sextet_of_char (c : ascii) : option Z :=
  let n := Z.of_nat (nat_of_ascii c) in
  if (65 <=? n) && (n <=? 90) then Some (n - 65)
  else if (97 <=? n) && (n <=? 122) then Some (n - 71)
  else if (48 <=? n) && (n <=? 57) then Some (n + 4)
  else if n =? 45 then Some 62
  else if n =? 95 then Some 63
  else None.

Definition quantum_of_sextets (s0 s1 s2 s3 : Z) : Z :=
  ((s0 * 64 + s1) * 64 + s2) * 64 + s3.

Definition quantum_byte (k : Z) (q : Z) : byte :=
  SHA256.byte_of_Z (Z.shiftr q (8 * (2 - k))).

Fixpoint base64url_decode (s : string) : option (list byte) :=
  match s with
  | EmptyString => Some []
  | String c0 (String c1 EmptyString) =>
      match sextet_of_char c0, sextet_of_char c1 with
      | Some s0, Some s1 =>
          Some [quantum_byte 0 (quantum_of_sextets s0 s1 0 0)]
      | _, _ => None
      end
  | String c0 (String c1 (String c2 EmptyString)) =>
      match sextet_of_char c0, sextet_of_char c1, sextet_of_char c2 with
      | Some s0, Some s1, Some s2 =>
          let q := quantum_of_sextets s0 s1 s2 0 in
          Some [quantum_byte 0 q; quantum_byte 1 q]
      | _, _, _ => None
      end
  | String c0 (String c1 (String c2 (String c3 rest))) =>
      match sextet_of_char c0, sextet_of_char c1, sextet_of_char c2, sextet_of_char c3,
            base64url_decode rest with
      | Some s0, Some s1, Some s2, Some s3, Some bytes =>
          let q := quantum_of_sextets s0 s1 s2 s3 in
          Some (quantum_byte 0 q :: quantum_byte 1 q :: quantum_byte 2 q :: bytes)
      | _, _, _, _, _ => None
      end
  | _ => None
  end.

(** ** [patientData.ts]: the local sample data *)

(** The members of a FHIR resource that the code looks at; [other]
    stands for the rest of the resource, which is passed along unread. *)
Module FHIR.

Record Coding : Type := MkCoding { coding_code : option string }.

Record CodeableConcept : Type := MkCodeableConcept { coding : option (list Coding) }.

Record Resource : Type := MkResource
  { resourceType : string;
    code : option CodeableConcept;
    other : string }.

Record BundleEntry : Type := MkBundleEntry { resource : option Resource }.

Record Bundle : Type := MkBundle { entry : option (list BundleEntry) }.

End FHIR.

Record PatientBundle : Type := MkPatientBundle
  { patient : FHIR.Resource;
    observations : list FHIR.Resource;
    conditions : list FHIR.Resource;
    allergies : list FHIR.Resource;
    medications : list FHIR.Resource;
    immunizations : list FHIR.Resource }.

(** [e.resource?.resourceType === type]. *)
Definition entry_has_type (type : string) (e : FHIR.BundleEntry) : bool :=
  match FHIR.resource e with
  | Some r => String.eqb (FHIR.resourceType r) type
  | None => false
  end.

(** [bundle.entry.filter(e => e.resource?.resourceType === type)
       .map(e => e.resource)]; an entry that passes the filter has a
    resource, so the mapping drops nothing. *)
Definition resources_of_type (type : string) (entries : list FHIR.BundleEntry)
  : list FHIR.Resource :=
  omap FHIR.resource (List.filter (entry_has_type type) entries).

(** The two sample bundles are JSON files outside the sources; the map
    is taken over whatever they hold. *)
Definition patientDataMap (patient1Data patient2Data : FHIR.Bundle)
  : gmap string FHIR.Bundle :=
  <["patient1" := patient1Data]> (<["patient2" := patient2Data]> ∅).

Definition getAvailablePatients : list (string * string) :=
  [ ("patient1", "Lucien408 Bosco882");
    ("patient2", "Dustin31 Ritchie586") ].

Definition getPatientData (patient1Data patient2Data : FHIR.Bundle) (patientId : string)
  : option PatientBundle :=
  match patientDataMap patient1Data patient2Data !! patientId with
  | None => None
  | Some bundle =>
      match FHIR.entry bundle with
      | None => None
      | Some entries =>
          match List.find (entry_has_type "Patient") entries with
          | None => None
          | Some found =>
              match FHIR.resource found with
              | None => None
              | Some patient =>
                  Some (MkPatientBundle patient
                          (resources_of_type "Observation" entries)
                          (resources_of_type "Condition" entries)
                          (resources_of_type "AllergyIntolerance" entries)
                          (resources_of_type "MedicationRequest" entries)
                          (resources_of_type "Immunization" entries))
              end
          end
      end
  end.

(** [obs.code?.coding?.[0]?.code]. *)
Definition first_code (obs : FHIR.Resource) : option string :=
  match FHIR.code obs with
  | None => None
  | Some concept =>
      match FHIR.coding concept with
      | None => None
      | Some codings =>
          match codings with
          | [] => None
          | first :: _ => FHIR.coding_code first
          end
      end
  end.

Definition has_code (loinc : string) (obs : FHIR.Resource) : bool :=
  bool_decide (first_code obs = Some loinc).

Record Vitals : Type := MkVitals
  { bloodPressure : list FHIR.Resource;
    heartRate : list FHIR.Resource;
    weight : list FHIR.Resource;
    height : list FHIR.Resource;
    bmi : list FHIR.Resource;
    temperature : list FHIR.Resource;
    respiratoryRate : list FHIR.Resource }.

Definition getVitalObservations (observations : list FHIR.Resource) : Vitals :=
  MkVitals (List.filter (has_code "85354-9") observations)
           (List.filter (has_code "8867-4") observations)
           (List.filter (has_code "29463-7") observations)
           (List.filter (has_code "8302-2") observations)
           (List.filter (has_code "39156-5") observations)
           (List.filter (has_code "8310-5") observations)
           (List.filter (has_code "9279-1") observations).

(** The seven codes and the seven lists of a [Vitals], in the order of
    the source. *)
Definition vital_codes : list string :=
  ["85354-9"; "8867-4"; "29463-7"; "8302-2"; "39156-5"; "8310-5"; "9279-1"].

Definition vitals_lists (v : Vitals) : list (list FHIR.Resource) :=
  [ bloodPressure v; heartRate v; weight v; height v; bmi v; temperature v;
    respiratoryRate v ].

(** ** The patient page of the SMART session: [fetchPatientData] *)

Inductive FhirRequest : Type :=
| ReadResource (client : MedplumClient) (resourceType id : string)
| SearchResources (client : MedplumClient) (resourceType : string)
                  (query : list (string * string)).


(** The FHIR server as the page meets it: each request is answered with
    data or rejected with a message. The five searches run together under
    [Promise.all]; when several are rejected, which rejection comes first
    is the server's timing, given here by [first_rejection]. *)
Record FhirServer : Type := MkFhirServer
  { readResource : MedplumClient -> string -> string -> string + FHIR.Resource;
    searchResources : MedplumClient -> string -> list (string * string)
                      -> string + list FHIR.Resource;
    first_rejection : list string -> string }.

(** The state of the page and the requests it has sent, oldest first. *)
Record PatientPageState : Type := MkPatientPageState
  { patientData : option PatientBundle;
    loading : bool;
    page_error : option string;
    requests : list FhirRequest }.

Definition rejections (results : list (string + list FHIR.Resource)) : list string :=
  flat_map (fun r => match r with inl msg => [msg] | inr _ => [] end) results.

Definition fetchPatientData (pf : Platform) (server : FhirServer)
    (storage : gmap string string) : PatientPageState :=
  let smartPatientId := storage !! "smart_patient" in
  let smartAccessToken := storage !! "smart_access_token" in
  let baseUrl := storage !! "smart_base_url" in
  if negb (truthy smartPatientId)
  then MkPatientPageState None false
         (Some "No patient ID found. Please launch the app from your EHR.") []
  else if negb (truthy smartAccessToken) || negb (truthy baseUrl)
  then MkPatientPageState None false
         (Some "No authentication credentials found. Please launch the app from your EHR.")
         []
  else
    let id := js_string "" smartPatientId in
    let options :=
      MkMedplumClient (js_string "" baseUrl) "" (Some (js_string "" smartAccessToken)) in
    match new_MedplumClient pf options with
    | inl err => MkPatientPageState None false (Some (message err)) []
    | inr medplum =>
        let read := ReadResource medplum "Patient" id in
        match readResource server medplum "Patient" id with
        | inl msg => MkPatientPageState None false (Some msg) [read]
        | inr patient =>
            let query := [("patient", "Patient/" ++ id); ("_count", "1000")] in
            let types := ["Observation"; "Condition"; "AllergyIntolerance";
                          "MedicationRequest"; "Immunization"] in
            let sent :=
              (read :: map (fun t => SearchResources medplum t query) types)%list in
            match searchResources server medplum "Observation" query,
                  searchResources server medplum "Condition" query,
                  searchResources server medplum "AllergyIntolerance" query,
                  searchResources server medplum "MedicationRequest" query,
                  searchResources server medplum "Immunization" query with
            | inr observations, inr conditions, inr allergies, inr medications,
              inr immunizations =>
                MkPatientPageState
                  (Some (MkPatientBundle patient observations conditions allergies
                           medications immunizations))
                  false None sent
            | o, c, a, m, i =>
                MkPatientPageState None false
                  (Some (first_rejection server (rejections [o; c; a; m; i]))) sent
            end
        end
    end.

(** * Properties *)

(** ** The PKCE encoding *)

Lemma SHA256_digest_length (msg : list byte) : length (SHA256.digest msg) = 32%nat.
Proof. reflexivity. Qed.

Section Base64.

Lemma list_ind3 {A} (P : list A -> Prop) :
  P [] -> (forall a, P [a]) -> (forall a b, P [a; b]) ->
  (forall a b c l, P l -> P (a :: b :: c :: l)) ->
  forall l, P l.
Proof.
  intros H0 H1 H2 H3 l.
  enough (P l /\ (forall a, P (a :: l)) /\ (forall a b, P (a :: b :: l))) by tauto.
  induction l as [|x l (IH0 & IH1 & IH2)]; auto.
Qed.

Lemma sextet_range k q : 0 <= sextet k q < 64.
Proof.
  unfold sextet. change 63 with (Z.ones 6).
  rewrite Z.land_ones by lia. apply Z.mod_pos_bound. lia.
Qed.

Lemma below_64_cases (P : Z -> Prop) :
  (forall n : nat, (n < 64)%nat -> P (Z.of_nat n)) ->
  forall i, 0 <= i < 64 -> P i.
Proof.
  intros H i Hi. rewrite <- (Z2Nat.id i) by lia. apply H. lia.
Qed.

Lemma url_safe_sextet i s :
  0 <= i < 64 ->
  url_safe (String (sextet_char base64_alphabet i) s)
  = String (sextet_char base64url_alphabet i) (url_safe s).
Proof.
  revert i. apply below_64_cases. intros n Hn.
  do 64 (destruct n as [|n]; [reflexivity|]). lia.
Qed.

Lemma sextet_char_url i :
  0 <= i < 64 -> is_base64url_char (sextet_char base64url_alphabet i) = true.
Proof.
  revert i. apply below_64_cases. intros n Hn.
  do 64 (destruct n as [|n]; [reflexivity|]). lia.
Qed.

Lemma base64UrlEncode_nopad (buffer : list byte) :
  base64UrlEncode buffer = base64url_nopad buffer.
Proof.
  unfold base64UrlEncode. fold (url_safe (btoa buffer)).
  induction buffer as [|a|a b|a b c l IH] using list_ind3.
  - reflexivity.
  - cbn [btoa base64url_nopad].
    rewrite !url_safe_sextet by apply sextet_range. reflexivity.
  - cbn [btoa base64url_nopad].
    rewrite !url_safe_sextet by apply sextet_range. reflexivity.
  - cbn [btoa base64url_nopad].
    rewrite !url_safe_sextet by apply sextet_range. now rewrite IH.
Qed.

Lemma base64url_nopad_length (bs : list byte) :
  String.length (base64url_nopad bs) = ((4 * length bs + 2) / 3)%nat.
Proof.
  induction bs as [|a|a b|a b c l IH] using list_ind3; try reflexivity.
  cbn [base64url_nopad String.length length]. rewrite IH.
  replace (4 * S (S (S (length l))) + 2)%nat with (4 * 3 + (4 * length l + 2))%nat by lia.
  rewrite (Nat.div_add_l 4 3) by lia. lia.
Qed.

Lemma base64url_nopad_alphabet (bs : list byte) :
  URL.all_chars is_base64url_char (base64url_nopad bs) = true.
Proof.
  induction bs as [|a|a b|a b c l IH] using list_ind3;
    cbn [base64url_nopad URL.all_chars];
    rewrite ?sextet_char_url by apply sextet_range; auto.
Qed.

Lemma base64UrlEncode_32 (buffer : list byte) :
  length buffer = 32%nat -> String.length (base64UrlEncode buffer) = 43%nat.
Proof.
  intros H. rewrite base64UrlEncode_nopad, base64url_nopad_length, H. reflexivity.
Qed.

End Base64.

Lemma all_chars_has_char p c s :
  URL.all_chars p s = true -> p c = false -> has_char c s = false.
Proof.
  intros Hs Hc. induction s as [|x s IH]; [reflexivity|].
  cbn in *. apply andb_true_iff in Hs as [Hx Hs].
  rewrite (IH Hs), orb_false_r. apply Ascii.eqb_neq. congruence.
Qed.

Lemma generateCodeVerifier_length e : String.length (generateCodeVerifier e) = 43%nat.
Proof. apply base64UrlEncode_32. reflexivity. Qed.

Lemma generateCodeChallenge_length v : String.length (generateCodeChallenge v) = 43%nat.
Proof. apply base64UrlEncode_32, SHA256_digest_length. Qed.

Lemma generateCodeChallenge_alphabet v :
  URL.all_chars is_base64url_char (generateCodeChallenge v) = true.
Proof.
  unfold generateCodeChallenge. rewrite base64UrlEncode_nopad.
  apply base64url_nopad_alphabet.
Qed.

(** C9. The code challenge is a function of the verifier alone: it is the
    unpadded URL-safe base64 text of the SHA-256 digest of the verifier's
    bytes, so equal verifiers give equal challenges; it reproduces the
    test vector of RFC 7636 (appendix B) and the digest of "abc" of
    FIPS 180-4; and it never contains [+], [/] or [=]. *)
Theorem generateCodeChallenge_deterministic_base64url :
  (forall v, generateCodeChallenge v
             = base64url_nopad (SHA256.digest (list_byte_of_string v)))
  /\ (forall v1 v2, v1 = v2 -> generateCodeChallenge v1 = generateCodeChallenge v2)
  /\ generateCodeChallenge "dBjftJeZ4CVP-mB92K27uhbUJU1p1r_wW1gFWFOEjXk"
     = "E9Melhoa2OwvFrEMTJguCHaoeK1t8URWbuGJSstw-cM"
  /\ generateCodeChallenge "abc" = "ungWv48Bz-pBQUDeXa4iI7ADYaOWF3qctBD_YfIAFa0"
  /\ (forall v, has_char "+" (generateCodeChallenge v) = false
                /\ has_char "/" (generateCodeChallenge v) = false
                /\ has_char "=" (generateCodeChallenge v) = false).
Proof.
  split; [|split; [|split; [|split]]].
  - intros v. unfold generateCodeChallenge. apply base64UrlEncode_nopad.
  - intros v1 v2 ->. reflexivity.
  - vm_compute. reflexivity.
  - vm_compute. reflexivity.
  - intros v. pose proof (generateCodeChallenge_alphabet v) as H.
    repeat split; apply (all_chars_has_char _ _ _ H); reflexivity.
Qed.

Lemma generateCodeChallenge_deterministic_witness :
  generateCodeChallenge "dBjftJeZ4CVP-mB92K27uhbUJU1p1r_wW1gFWFOEjXk"
  = generateCodeChallenge "dBjftJeZ4CVP-mB92K27uhbUJU1p1r_wW1gFWFOEjXk".
Proof.
  apply (proj1 (proj2 generateCodeChallenge_deterministic_base64url)
           "dBjftJeZ4CVP-mB92K27uhbUJU1p1r_wW1gFWFOEjXk"
           "dBjftJeZ4CVP-mB92K27uhbUJU1p1r_wW1gFWFOEjXk").
  reflexivity.
Defined.

(** ** Reasoning about the launch monad *)

Section WP.
Context {A B : Type}.
Implicit Types (w : World).

Lemma wp_ret (a : A) (Q : Outcome A -> World -> Prop) w :
  Q (Returned a) w -> wp (ret a) Q w.
Proof. exact id. Qed.

Lemma wp_throw e (Q : Outcome A -> World -> Prop) w :
  Q (Thrown e) w -> wp (throw e) Q w.
Proof. exact id. Qed.

Lemma wp_never (Q : Outcome A -> World -> Prop) w :
  Q Pending w -> wp never Q w.
Proof. exact id. Qed.

Lemma wp_bind (m : M B) (k : B -> M A) (Q : Outcome A -> World -> Prop) w :
  wp m (fun o w' =>
          match o with
          | Returned b => wp (k b) Q w'
          | Thrown e => Q (Thrown e) w'
          | Pending => Q Pending w'
          end) w ->
  wp (bind m k) Q w.
Proof. unfold wp, bind. destruct (m w) as [[b|e|] w']; exact id. Qed.

Lemma wp_catch (m : M A) (h : Error -> M A) (Q : Outcome A -> World -> Prop) w :
  wp m (fun o w' =>
          match o with
          | Thrown e => wp (h e) Q w'
          | o' => Q o' w'
          end) w ->
  wp (catch m h) Q w.
Proof. unfold wp, catch. destruct (m w) as [[b|e|] w']; exact id. Qed.

Lemma wp_getItem key (Q : Outcome (option string) -> World -> Prop) w :
  Q (Returned (sessionStorage w !! key)) w -> wp (getItem key) Q w.
Proof. exact id. Qed.

Lemma wp_setItem key value (Q : Outcome unit -> World -> Prop) w :
  Q (Returned tt)
    (MkWorld (<[key := value]> (sessionStorage w))
             (hasInitialized w) (error w) (medplum w) (trace w)) ->
  wp (setItem key value) Q w.
Proof. exact id. Qed.

Lemma wp_removeItem key (Q : Outcome unit -> World -> Prop) w :
  Q (Returned tt)
    (MkWorld (delete key (sessionStorage w))
             (hasInitialized w) (error w) (medplum w) (trace w)) ->
  wp (removeItem key) Q w.
Proof. exact id. Qed.

Lemma wp_emit e (Q : Outcome unit -> World -> Prop) w :
  Q (Returned tt)
    (MkWorld (sessionStorage w) (hasInitialized w) (error w) (medplum w)
             (trace w ++ [e])) ->
  wp (emit e) Q w.
Proof. exact id. Qed.

Lemma wp_setError msg (Q : Outcome unit -> World -> Prop) w :
  Q (Returned tt)
    (MkWorld (sessionStorage w) (hasInitialized w) (Some msg) (medplum w) (trace w)) ->
  wp (setError msg) Q w.
Proof. exact id. Qed.

Lemma wp_setInitialized (Q : Outcome unit -> World -> Prop) w :
  Q (Returned tt)
    (MkWorld (sessionStorage w) true (error w) (medplum w) (trace w)) ->
  wp setInitialized Q w.
Proof. exact id. Qed.

Lemma wp_setMedplum c (Q : Outcome unit -> World -> Prop) w :
  Q (Returned tt)
    (MkWorld (sessionStorage w) (hasInitialized w) (error w) (Some c) (trace w)) ->
  wp (setMedplum c) Q w.
Proof. exact id. Qed.

Lemma wp_lift (r : Error + A) (Q : Outcome A -> World -> Prop) w :
  match r with
  | inl e => Q (Thrown e) w
  | inr a => Q (Returned a) w
  end ->
  wp (lift r) Q w.
Proof. destruct r; exact id. Qed.

Lemma wp_member_object members name (Q : Outcome (option string) -> World -> Prop) w :
  Q (Returned (members !! name)) w -> wp (lift (member (JObject members) name)) Q w.
Proof. exact id. Qed.

Lemma wp_member_null name (Q : Outcome (option string) -> World -> Prop) w :
  Q (Thrown (PlatformError ("Cannot read properties of null (reading '" ++ name ++ "')"))) w ->
  wp (lift (member JNull name)) Q w.
Proof. exact id. Qed.

Lemma wp_new_MedplumClient pf options (Q : Outcome MedplumClient -> World -> Prop) w :
  match medplum_rejects pf options with
  | Some msg => Q (Thrown (PlatformError msg)) w
  | None => Q (Returned options) w
  end ->
  wp (lift (new_MedplumClient pf options)) Q w.
Proof. unfold wp, lift, new_MedplumClient. destruct (medplum_rejects pf options); exact id. Qed.

End WP.

(** A first run of the effect on a world whose guard is clear is the
    guard assignment followed by the handler. *)
Lemma launchEffect_unguarded pf env w (P : World -> Prop) :
  hasInitialized w = false ->
  wp (setInitialized ;;; handleSmartLaunch pf env) (fun _ w' => P w') w ->
  P (launchEffect pf env w).
Proof. intros Hg H. unfold launchEffect. rewrite Hg. exact H. Qed.

Lemma launchEffect_fresh pf env st (P : World -> Prop) :
  wp (setInitialized ;;; handleSmartLaunch pf env) (fun _ w' => P w') (pageLoad st) ->
  P (launchEffect pf env (pageLoad st)).
Proof. exact id. Qed.

Ltac wp_prim :=
  lazymatch goal with
  | |- wp (bind _ _) _ _ => apply wp_bind
  | |- wp (catch _ _) _ _ => apply wp_catch
  | |- wp (ret _) _ _ => apply wp_ret
  | |- wp (throw _) _ _ => apply wp_throw
  | |- wp never _ _ => apply wp_never
  | |- wp (getItem _) _ _ => apply wp_getItem
  | |- wp (setItem _ _) _ _ => apply wp_setItem
  | |- wp (removeItem _) _ _ => apply wp_removeItem
  | |- wp (emit _) _ _ => apply wp_emit
  | |- wp (setError _) _ _ => apply wp_setError
  | |- wp setInitialized _ _ => apply wp_setInitialized
  | |- wp (setMedplum _) _ _ => apply wp_setMedplum
  | |- wp (fetch _ _) _ _ => unfold fetch
  | |- wp (response_json _) _ _ => unfold response_json
  | |- wp (lift (member (JObject _) _)) _ _ => apply wp_member_object
  | |- wp (lift (member JNull _)) _ _ => apply wp_member_null
  | |- wp (lift (member ?j _)) _ _ => destruct j
  | |- wp (lift (new_MedplumClient ?pf ?o)) _ _ =>
      apply wp_new_MedplumClient; destruct (medplum_rejects pf o) eqn:?
  | |- wp (lift ?r) _ _ => apply wp_lift; destruct r eqn:?
  | |- wp (handleSmartLaunch _ _) _ _ => unfold handleSmartLaunch
  | |- wp (handleSmartLaunch_body _ _) _ _ => unfold handleSmartLaunch_body
  | |- wp (initiateEhrLaunch _ _ _) _ _ => unfold initiateEhrLaunch
  | |- wp (validateAuthResponse _) _ _ => unfold validateAuthResponse
  | |- wp (exchangeCodeForToken _ _ _ _) _ _ => unfold exchangeCodeForToken
  | |- wp (fetchSmartConfiguration _ _) _ _ => unfold fetchSmartConfiguration
  | |- wp (setupMedplumClient _ _ _) _ _ => unfold setupMedplumClient
  | |- wp (SmartLaunch_handleClick _ _ _) _ _ => unfold SmartLaunch_handleClick
  end.

Ltac wp_case :=
  lazymatch goal with
  | |- wp (if ?b then _ else _) _ _ =>
      lazymatch b with
      | context [truthy (params_get ?k ?p)] => destruct (truthy (params_get k p)) eqn:?
      | context [truthy ?x] => destruct (truthy x) eqn:?
      | context [bool_decide ?P] => destruct (bool_decide_reflect P)
      | context [ok ?r] => destruct (ok r) eqn:?
      | _ => destruct b eqn:?
      end
  | |- wp (match ?x with _ => _ end) _ _ => destruct x eqn:?
  end.

Ltac wp_simpl :=
  cbn beta iota zeta delta
    [fst snd sessionStorage hasInitialized error medplum trace negb andb orb
     length app Nat.ltb Nat.leb] in *;
  rewrite ?andb_false_r.

Ltac wp_step := first [wp_prim | wp_case]; wp_simpl; simplify_eq.

Ltac wp_run := repeat wp_step.

Ltac wp_start :=
  lazymatch goal with
  | |- context [launchEffect ?pf ?env (pageLoad ?st)] =>
      pattern (launchEffect pf env (pageLoad st));
      apply launchEffect_fresh; unfold pageLoad
  end.

(** ** Handlers in pieces *)

Lemma Promise_induction {A} (P : Promise A -> Prop) :
  (forall o, P (Settled o)) ->
  (forall resume, (forall w, P (fst (resume w))) -> P (Awaiting resume)) ->
  forall t, P t.
Proof.
  intros HS HA. fix IH 1. intros [o|resume]; [apply HS|].
  apply HA. intros w. apply IH.
Qed.

Lemma bind_ext {A B} (m m' : M A) (k k' : A -> M B) (w : World) :
  (forall w0, m w0 = m' w0) -> (forall a w0, k a w0 = k' a w0) ->
  bind m k w = bind m' k' w.
Proof.
  intros Hm Hk. unfold bind. rewrite Hm.
  destruct (m' w) as [[a|e|] w']; [apply Hk|reflexivity|reflexivity].
Qed.

Lemma catch_ext {A} (m m' : M A) (h h' : Error -> M A) (w : World) :
  (forall w0, m w0 = m' w0) -> (forall e w0, h e w0 = h' e w0) ->
  catch m h w = catch m' h' w.
Proof.
  intros Hm Hh. unfold catch. rewrite Hm.
  destruct (m' w) as [[a|e|] w']; [reflexivity|apply Hh|reflexivity].
Qed.

Lemma finish_settle_later {A} (t : Promise A) (w : World) : finish (settle_later t) w = finish t w.
Proof.
  revert w. induction t as [o|resume IH] using Promise_induction; intros w; [reflexivity|].
  cbn [settle_later finish]. specialize (IH w).
  destruct (resume w) as [t' w']. exact (IH w').
Qed.

Lemma finish_and_then {A B} (t : Promise A) (k : A -> Async B) (w : World) :
  (let (t', w') := and_then t k w in finish t' w')
  = bind (finish t) (fun a => run_through (k a)) w.
Proof.
  revert w. induction t as [[a|e|]|resume IH] using Promise_induction; intros w;
    try reflexivity.
  cbn [and_then finish]. unfold bind. cbn [finish]. specialize (IH w).
  destruct (resume w) as [t' w']. exact (IH w').
Qed.

Lemma finish_rescue {A} (t : Promise A) (h : Error -> Async A) (w : World) :
  (let (t', w') := rescue t h w in finish t' w')
  = catch (finish t) (fun e => run_through (h e)) w.
Proof.
  revert w. induction t as [[a|e|]|resume IH] using Promise_induction; intros w;
    try reflexivity.
  cbn [rescue finish]. unfold catch. cbn [finish]. specialize (IH w).
  destruct (resume w) as [t' w']. exact (IH w').
Qed.

(** Run with nothing in between, the combinators of [Async] are those of
    [M]. *)
Lemma run_through_sync {A} (m : M A) (w : World) : run_through (sync m) w = m w.
Proof. unfold run_through, sync. now destruct (m w). Qed.

Lemma run_through_await {A} (c : Async A) (w : World) : run_through (await c) w = run_through c w.
Proof.
  unfold run_through, await. destruct (c w) as [t w']. apply finish_settle_later.
Qed.

Lemma run_through_abind {A B} (c : Async A) (k : A -> Async B) (w : World) :
  run_through (abind c k) w = bind (run_through c) (fun a => run_through (k a)) w.
Proof.
  unfold run_through at 1, abind. destruct (c w) as [t w'] eqn:E.
  assert (Hr : run_through c w = finish t w') by (unfold run_through; now rewrite E).
  rewrite finish_and_then. unfold bind. now rewrite Hr.
Qed.

Lemma run_through_acatch {A} (c : Async A) (h : Error -> Async A) (w : World) :
  run_through (acatch c h) w = catch (run_through c) (fun e => run_through (h e)) w.
Proof.
  unfold run_through at 1, acatch. destruct (c w) as [t w'] eqn:E.
  assert (Hr : run_through c w = finish t w') by (unfold run_through; now rewrite E).
  rewrite finish_rescue. unfold catch. now rewrite Hr.
Qed.

(** *** Every piece moves on *)

Lemma later_refl (w : World) : later w w.
Proof. split; [exact id|reflexivity]. Qed.

Lemma later_trans (w1 w2 w3 : World) : later w1 w2 -> later w2 w3 -> later w1 w3.
Proof.
  intros [G1 T1] [G2 T2]. split; [auto|etransitivity; eassumption].
Qed.

Lemma moves_on_settle_later {A} (t : Promise A) : moves_on t -> moves_on (settle_later t).
Proof.
  induction t as [o|resume IH] using Promise_induction; intros H.
  - intros w. split; [apply later_refl|exact I].
  - cbn [settle_later moves_on] in *. intros w. specialize (H w). specialize (IH w).
    destruct (resume w) as [t' w']. destruct H as [H1 H2]. split; [exact H1|now apply IH].
Qed.

Lemma moves_on_and_then {A B} (t : Promise A) (k : A -> Async B) :
  moves_on t -> (forall a, proceeds (k a)) ->
  forall w, let (t', w') := and_then t k w in later w w' /\ moves_on t'.
Proof.
  intros Ht Hk. induction t as [[a|e|]|resume IH] using Promise_induction; intros w.
  - apply Hk.
  - split; [apply later_refl|exact I].
  - split; [apply later_refl|exact I].
  - cbn [and_then]. split; [apply later_refl|]. cbn [moves_on] in *. intros w1.
    specialize (Ht w1). specialize (IH w1).
    destruct (resume w1) as [t1 w2]. destruct Ht as [H1 H2].
    specialize (IH H2 w2). cbn [fst] in IH.
    destruct (and_then t1 k w2) as [t3 w3]. destruct IH as [H3 H4].
    split; [eapply later_trans; eassumption|exact H4].
Qed.

Lemma moves_on_rescue {A} (t : Promise A) (h : Error -> Async A) :
  moves_on t -> (forall e, proceeds (h e)) ->
  forall w, let (t', w') := rescue t h w in later w w' /\ moves_on t'.
Proof.
  intros Ht Hh. induction t as [[a|e|]|resume IH] using Promise_induction; intros w.
  - split; [apply later_refl|exact I].
  - apply Hh.
  - split; [apply later_refl|exact I].
  - cbn [rescue]. split; [apply later_refl|]. cbn [moves_on] in *. intros w1.
    specialize (Ht w1). specialize (IH w1).
    destruct (resume w1) as [t1 w2]. destruct Ht as [H1 H2].
    specialize (IH H2 w2). cbn [fst] in IH.
    destruct (rescue t1 h w2) as [t3 w3]. destruct IH as [H3 H4].
    split; [eapply later_trans; eassumption|exact H4].
Qed.

Lemma proceeds_sync {A} (m : M A) :
  (forall w, wp m (fun _ w' => later w w') w) -> proceeds (sync m).
Proof.
  intros H w. specialize (H w). unfold wp in H. unfold sync.
  destruct (m w) as [o w']. split; [exact H|exact I].
Qed.

Lemma proceeds_await {A} (c : Async A) : proceeds c -> proceeds (await c).
Proof.
  intros H w. specialize (H w). unfold await. destruct (c w) as [t w'].
  destruct H as [H1 H2]. split; [exact H1|now apply moves_on_settle_later].
Qed.

Lemma proceeds_abind {A B} (c : Async A) (k : A -> Async B) :
  proceeds c -> (forall a, proceeds (k a)) -> proceeds (abind c k).
Proof.
  intros Hc Hk w. specialize (Hc w). unfold abind. destruct (c w) as [t w'].
  destruct Hc as [H1 H2]. pose proof (moves_on_and_then t k H2 Hk w') as H.
  destruct (and_then t k w') as [t2 w2]. destruct H as [H3 H4].
  split; [eapply later_trans; eassumption|exact H4].
Qed.

Lemma proceeds_acatch {A} (c : Async A) (h : Error -> Async A) :
  proceeds c -> (forall e, proceeds (h e)) -> proceeds (acatch c h).
Proof.
  intros Hc Hh w. specialize (Hc w). unfold acatch. destruct (c w) as [t w'].
  destruct Hc as [H1 H2]. pose proof (moves_on_rescue t h H2 Hh w') as H.
  destruct (rescue t h w') as [t2 w2]. destruct H as [H3 H4].
  split; [eapply later_trans; eassumption|exact H4].
Qed.

(** A promise that moves on ends in a later world. *)
Lemma finish_later {A} (t : Promise A) (w : World) : moves_on t -> later w (snd (finish t w)).
Proof.
  revert w. induction t as [o|resume IH] using Promise_induction; intros w H.
  - apply later_refl.
  - cbn [finish moves_on] in *. specialize (H w). specialize (IH w).
    destruct (resume w) as [t' w']. destruct H as [H1 H2].
    eapply later_trans; [exact H1|now apply IH].
Qed.

(** Every promise comes to its end after finitely many pieces. *)
Lemma resume_settles pf env (t : Promise unit) (w : World) :
  exists n, EventLoop.quiet
              (EventLoop.turns pf env (repeat (EventLoop.Resume 0) n)
                 (EventLoop.MkMounted w [t])) = true.
Proof.
  revert w. induction t as [o|resume IH] using Promise_induction; intros w.
  - exists 0%nat. reflexivity.
  - specialize (IH w). destruct (resume w) as [t' w'] eqn:E. cbn [fst] in IH.
    destruct (IH w') as [n Hn]. exists (S n).
    cbn [repeat]. unfold EventLoop.turns. cbn [fold_left EventLoop.turn].
    change (EventLoop.quiet
              (fold_left (EventLoop.turn pf env) (repeat (EventLoop.Resume 0) n)
                 (EventLoop.resume 0 (EventLoop.MkMounted w [Awaiting resume]))) = true).
    unfold EventLoop.resume.
    cbn [EventLoop.handlers EventLoop.world lookup list_lookup].
    rewrite E. exact Hn.
Qed.

(** *** The handler, piece by piece *)

Ltac later_solve :=
  unfold later; cbn [hasInitialized trace];
  split; [auto | first [reflexivity | apply prefix_app_r; reflexivity]].

Ltac proceeds_step :=
  cbv zeta;
  lazymatch goal with
  | |- proceeds (abind _ _) => apply proceeds_abind; [|intros ?]
  | |- proceeds (acatch _ _) => apply proceeds_acatch; [|intros ?]
  | |- proceeds (await _) => apply proceeds_await
  | |- proceeds (sync _) => apply proceeds_sync; intros ?; wp_run; later_solve
  | |- proceeds (if ?b then _ else _) => destruct b
  | |- proceeds (match ?x with _ => _ end) => destruct x
  end.

Lemma fetchSmartConfiguration_proceeds env iss :
  proceeds (EventLoop.fetchSmartConfiguration env iss).
Proof. unfold EventLoop.fetchSmartConfiguration. repeat proceeds_step. Qed.

Lemma generateCodeChallenge_proceeds verifier :
  proceeds (EventLoop.generateCodeChallenge verifier).
Proof. unfold EventLoop.generateCodeChallenge. repeat proceeds_step. Qed.

Lemma initiateEhrLaunch_proceeds pf env params :
  proceeds (EventLoop.initiateEhrLaunch pf env params).
Proof.
  unfold EventLoop.initiateEhrLaunch.
  repeat first [ apply fetchSmartConfiguration_proceeds
               | apply generateCodeChallenge_proceeds
               | proceeds_step ].
Qed.

Lemma exchangeCodeForToken_proceeds env params config clientId :
  proceeds (EventLoop.exchangeCodeForToken env params config clientId).
Proof. unfold EventLoop.exchangeCodeForToken. repeat proceeds_step. Qed.

Lemma handleSmartLaunch_proceeds pf env : proceeds (EventLoop.handleSmartLaunch pf env).
Proof.
  unfold EventLoop.handleSmartLaunch, EventLoop.handleSmartLaunch_body.
  repeat first [ apply fetchSmartConfiguration_proceeds
               | apply initiateEhrLaunch_proceeds
               | apply exchangeCodeForToken_proceeds
               | proceeds_step ].
Qed.

(** Run with nothing in between, each function of [EventLoop] is the
    function of the same name above. *)
Ltac through_step :=
  cbv zeta;
  lazymatch goal with
  | |- run_through (abind _ _) _ = bind _ _ _ =>
      rewrite run_through_abind; apply bind_ext; intros
  | |- run_through (acatch _ _) _ = catch _ _ _ =>
      rewrite run_through_acatch; apply catch_ext; intros
  | |- run_through (await _) _ = _ => rewrite run_through_await
  | |- run_through (sync _) _ = _ => apply run_through_sync
  | |- run_through (if ?b then _ else _) _ = _ => destruct b
  | |- run_through (match ?x with _ => _ end) _ = _ => destruct x
  end.

Lemma fetchSmartConfiguration_through env iss (w : World) :
  run_through (EventLoop.fetchSmartConfiguration env iss) w
  = fetchSmartConfiguration env iss w.
Proof.
  unfold EventLoop.fetchSmartConfiguration, fetchSmartConfiguration.
  repeat through_step.
Qed.

Lemma generateCodeChallenge_through {A} verifier (k : string -> Async A) (w : World) :
  run_through (abind (await (EventLoop.generateCodeChallenge verifier)) k) w
  = run_through (k (generateCodeChallenge verifier)) w.
Proof. reflexivity. Qed.

Lemma initiateEhrLaunch_through pf env params (w : World) :
  run_through (EventLoop.initiateEhrLaunch pf env params) w
  = initiateEhrLaunch pf env params w.
Proof.
  unfold EventLoop.initiateEhrLaunch, initiateEhrLaunch.
  repeat first [ apply fetchSmartConfiguration_through
               | rewrite generateCodeChallenge_through
               | through_step ].
Qed.

Lemma response_text_through {A} (r : Response) (k : string -> Async A) (w : World) :
  run_through (abind (await (sync (ret (text r)))) k) w = run_through (k (text r)) w.
Proof. reflexivity. Qed.

Lemma exchangeCodeForToken_through env params config clientId (w : World) :
  run_through (EventLoop.exchangeCodeForToken env params config clientId) w
  = exchangeCodeForToken env params config clientId w.
Proof.
  unfold EventLoop.exchangeCodeForToken, exchangeCodeForToken.
  repeat first [ rewrite response_text_through | through_step ].
Qed.

Lemma handleSmartLaunch_through pf env (w : World) :
  run_through (EventLoop.handleSmartLaunch pf env) w = handleSmartLaunch pf env w.
Proof.
  unfold EventLoop.handleSmartLaunch, handleSmartLaunch,
    EventLoop.handleSmartLaunch_body, handleSmartLaunch_body.
  repeat first [ apply fetchSmartConfiguration_through
               | apply initiateEhrLaunch_through
               | apply exchangeCodeForToken_through
               | through_step ].
Qed.

(** The handler catches what it throws. *)
Lemma handleSmartLaunch_catches pf env (h : Error -> M unit) (w : World) :
  catch (handleSmartLaunch pf env) h w = handleSmartLaunch pf env w.
Proof.
  unfold handleSmartLaunch. unfold catch.
  destruct (handleSmartLaunch_body pf env w) as [[[]|e|] w']; reflexivity.
Qed.

(** ** The callback page load *)

(** Whatever a component does once mounted, its guard stays set. *)
Lemma launchEffect_sets_guard pf env w : hasInitialized (launchEffect pf env w) = true.
Proof.
  destruct (hasInitialized w) eqn:Hg.
  - unfold launchEffect. now rewrite Hg.
  - pattern (launchEffect pf env w). apply launchEffect_unguarded; [exact Hg|].
    wp_run; reflexivity.
Qed.

Lemma launchEffect_guarded pf env w :
  hasInitialized w = true -> launchEffect pf env w = w.
Proof. intros Hg. unfold launchEffect. now rewrite Hg. Qed.

(** No operation of the page clears the guard, so it is set at every
    point of a handler's run, also while the handler awaits the network. *)
Lemma guard_stays_set w :
  hasInitialized w = true ->
  (forall key, hasInitialized (snd (getItem key w)) = true)
  /\ (forall key value, hasInitialized (snd (setItem key value w)) = true)
  /\ (forall key, hasInitialized (snd (removeItem key w)) = true)
  /\ (forall e, hasInitialized (snd (emit e w)) = true)
  /\ (forall msg, hasInitialized (snd (setError msg w)) = true)
  /\ hasInitialized (snd (setInitialized w)) = true
  /\ (forall c, hasInitialized (snd (setMedplum c w)) = true).
Proof. intros Hg. repeat split; intros; exact Hg. Qed.

(** On a callback page load the store is either left as it was found,
    or a token exchange has been answered with success and a body that
    parses, and then the three handshake keys are gone, whatever happens
    afterwards. *)
Lemma callback_store_change pf env st :
  truthy (params_get "launch" (location_search env)) = false ->
  let w := launchEffect pf env (pageLoad st) in
  sessionStorage w = st
  \/ (exists url body r tokenData,
        In (Fetch (POST url body)) (trace w)
        /\ network env (POST url body) = Some r
        /\ ok r = true
        /\ json r = Some tokenData)
     /\ sessionStorage w !! "smart_state" = None
     /\ sessionStorage w !! "smart_iss" = None
     /\ sessionStorage w !! "smart_code_verifier" = None.
Proof.
  intros Hl w. subst w. wp_start.
  wp_run;
    first
      [ left; reflexivity
      | right; split;
        [ match goal with
          | Hn : network _ (POST ?url ?body) = Some ?r, Hj : json ?r = Some ?j |- _ =>
              exists url, body, r, j;
              split; [cbn [In]; tauto|];
              split; [exact Hn|]; split; [assumption|exact Hj]
          end
        | repeat split; now simplify_map_eq ] ].
Qed.

(** C1, as the code has it. A callback page load (no [launch]
    parameter) on which validation fails, because [state] is missing or is
    not the stored [smart_state], shows an error, contacts no one and
    leaves the store exactly as it was: [smart_state], [smart_iss] and
    [smart_code_verifier] are not removed. The store is likewise untouched
    when [code] is missing and when there is no stored verifier, in which
    case no token exchange is posted. The three keys are removed by one
    thing only, a token exchange answered with success and a body that
    parses: every callback page load that changes the store has had such
    an answer, and every one that has a [code] and ends without an error
    has removed all three. *)
Theorem callback_failure_leaves_store pf env st :
  truthy (params_get "launch" (location_search env)) = false ->
  let w := launchEffect pf env (pageLoad st) in
  (truthy (params_get "error" (location_search env)) = false ->
   truthy (params_get "code" (location_search env)) = true ->
   truthy (params_get "state" (location_search env)) = false
   \/ params_get "state" (location_search env) <> st !! "smart_state" ->
   is_Some (error w) /\ trace w = [] /\ sessionStorage w = st)
  /\ (truthy (params_get "code" (location_search env)) = false ->
      sessionStorage w = st)
  /\ (truthy (st !! "smart_code_verifier") = false ->
      sessionStorage w = st /\ token_posts (trace w) = 0%nat)
  /\ (sessionStorage w <> st ->
      exists url body r tokenData,
        In (Fetch (POST url body)) (trace w)
        /\ network env (POST url body) = Some r
        /\ ok r = true
        /\ json r = Some tokenData)
  /\ (error w = None ->
      truthy (params_get "code" (location_search env)) = true ->
      sessionStorage w !! "smart_state" = None
      /\ sessionStorage w !! "smart_iss" = None
      /\ sessionStorage w !! "smart_code_verifier" = None).
Proof.
  intros Hl w. split; [|split; [|split; [|split]]].
  - intros He Hc Hs. subst w. wp_start.
    wp_run; try (destruct Hs; [discriminate|contradiction]);
      (split; [eexists; reflexivity | split; reflexivity]).
  - intros Hc. subst w. wp_start. wp_run; reflexivity.
  - intros Hv. subst w. wp_start. wp_run; split; reflexivity.
  - intros Hne. destruct (callback_store_change pf env st Hl) as [Heq|[Hx _]];
      [contradiction|exact Hx].
  - intros Hn Hc. revert Hn. subst w. wp_start. wp_run; try discriminate;
      intros _; simplify_map_eq; done.
Qed.

Lemma callback_failure_leaves_store_witness :
  let w := launchEffect browser
             (page [("code", "abc"); ("state", "forged-state")] no_network)
             (pageLoad in_flight_store) in
  is_Some (error w) /\ trace w = [] /\ sessionStorage w = in_flight_store.
Proof.
  apply (callback_failure_leaves_store browser
           (page [("code", "abc"); ("state", "forged-state")] no_network)
           in_flight_store).
  - reflexivity.
  - reflexivity.
  - reflexivity.
  - right. vm_compute. discriminate.
Defined.

(** C1, as stated, fails: after a callback whose [state] does not match,
    the handshake keys are all still in the store. *)
Lemma state_mismatch_keeps_handshake_keys :
  let w := launchEffect browser (page [("code", "abc"); ("state", "forged-state")] no_network)
                        (pageLoad in_flight_store) in
  error w = Some (message StateMismatch)
  /\ sessionStorage w !! "smart_state" = Some "expected-state"
  /\ sessionStorage w !! "smart_iss" = Some "https://ehr.example.org"
  /\ sessionStorage w !! "smart_code_verifier" = Some "stored-verifier".
Proof. vm_compute. repeat split. Qed.

(** C2. A callback whose [state] parameter is not the value stored under
    [smart_state] never posts to the token endpoint; when it is a callback
    proper (a [code] and a [state], no provider error, no [launch]) it ends
    with the state-mismatch error before any network call. *)
Theorem state_mismatch_no_token_exchange pf env st :
  params_get "state" (location_search env) <> st !! "smart_state" ->
  let w := launchEffect pf env (pageLoad st) in
  token_posts (trace w) = 0%nat
  /\ (truthy (params_get "error" (location_search env)) = false ->
      truthy (params_get "launch" (location_search env)) = false ->
      truthy (params_get "code" (location_search env)) = true ->
      truthy (params_get "state" (location_search env)) = true ->
      error w = Some (message StateMismatch) /\ trace w = []).
Proof.
  intros Hs w. subst w. split.
  - wp_start. wp_run; reflexivity.
  - intros He Hl Hc Ht. wp_start. wp_run. split; reflexivity.
Qed.

Lemma state_mismatch_no_token_exchange_witness :
  let w := launchEffect browser (page [("code", "abc"); ("state", "forged-state")] ehr_network)
                        (pageLoad in_flight_store) in
  error w = Some (message StateMismatch) /\ trace w = [].
Proof.
  apply (state_mismatch_no_token_exchange browser
           (page [("code", "abc"); ("state", "forged-state")] ehr_network)
           in_flight_store).
  - vm_compute. discriminate.
  - reflexivity.
  - reflexivity.
  - reflexivity.
  - reflexivity.
Defined.

(** ** The effect, run more than once *)

Lemma token_posts_app (l1 l2 : list Effect) :
  token_posts (l1 ++ l2) = (token_posts l1 + token_posts l2)%nat.
Proof. unfold token_posts. now rewrite List.filter_app, length_app. Qed.

Lemma token_posts_prefix (l1 l2 : list Effect) :
  l1 `prefix_of` l2 -> (token_posts l1 <= token_posts l2)%nat.
Proof. intros [k ->]. rewrite token_posts_app. lia. Qed.

(** One run of the effect posts at most one token exchange. *)
Lemma single_run_posts_at_most_once pf env st :
  (token_posts (trace (launchEffect pf env (pageLoad st))) <= 1)%nat.
Proof. wp_start. wp_run; cbn; lia. Qed.

(** A callback that reaches the exchange posts exactly one. *)
Lemma callback_posts_once pf env st :
  truthy (params_get "error" (location_search env)) = false ->
  truthy (params_get "launch" (location_search env)) = false ->
  truthy (params_get "code" (location_search env)) = true ->
  truthy (params_get "state" (location_search env)) = true ->
  params_get "state" (location_search env) = st !! "smart_state" ->
  truthy (st !! "smart_iss") = true ->
  configuration_has_members env (js_string "" (st !! "smart_iss")) = true ->
  (exists cid, getClientId pf (location_search env) (js_string "" (st !! "smart_iss"))
               = inr cid) ->
  truthy (st !! "smart_code_verifier") = true ->
  token_posts (trace (launchEffect pf env (pageLoad st))) = 1%nat.
Proof.
  intros He Hl Hc Ht Hs Hi Hr [cid Hcid] Hv.
  unfold configuration_has_members in Hr. wp_start. wp_run; reflexivity.
Qed.

(** The first run of the effect on a fresh mount: the guard is set, one
    handler is started, and what that handler will have done at its end
    is what [launchEffect] computes in one piece. *)
Lemma first_run_of_effect pf env st :
  exists t w,
    EventLoop.launchEffect pf env (EventLoop.mount st) = EventLoop.MkMounted w [t]
    /\ hasInitialized w = true
    /\ moves_on t
    /\ snd (finish t w) = launchEffect pf env (pageLoad st).
Proof.
  set (c := acatch (await (EventLoop.handleSmartLaunch pf env))
                   (fun err => sync (setError (message err)))).
  set (w1 := MkWorld st true None None []).
  assert (Hp : proceeds c).
  { apply proceeds_acatch; [apply proceeds_await, handleSmartLaunch_proceeds|].
    intros e. apply proceeds_sync. intros w. wp_run. later_solve. }
  assert (Hr : run_through c w1 = handleSmartLaunch pf env w1).
  { unfold c. rewrite run_through_acatch.
    rewrite (catch_ext _ (handleSmartLaunch pf env) _
               (fun e => setError (message e))).
    - apply handleSmartLaunch_catches.
    - intros w. rewrite run_through_await. apply handleSmartLaunch_through.
    - intros e w. apply run_through_sync. }
  specialize (Hp w1). unfold run_through in Hr.
  destruct (c w1) as [t w] eqn:E. destruct Hp as [[Hg _] Hm].
  exists t, w. split; [|split; [exact (Hg eq_refl)|split; [exact Hm|]]].
  - unfold EventLoop.launchEffect, EventLoop.mount, pageLoad.
    cbn [EventLoop.world EventLoop.handlers hasInitialized setInitialized
         sessionStorage error medplum trace].
    fold w1. fold c. now rewrite E.
  - rewrite Hr. reflexivity.
Qed.

(** What holds of a mounted page after any turns: nothing has happened
    yet, or the effect has run, and then there is one handler, the guard
    is set, and the handler is on its way to the end of the single run. *)
Lemma mounted_invariant pf env st (ts : list EventLoop.Turn) :
  let p := EventLoop.turns pf env ts (EventLoop.mount st) in
  (~ In EventLoop.RunEffect ts /\ p = EventLoop.mount st)
  \/ (In EventLoop.RunEffect ts
      /\ exists t, EventLoop.handlers p = [t]
                   /\ hasInitialized (EventLoop.world p) = true
                   /\ moves_on t
                   /\ snd (finish t (EventLoop.world p))
                      = launchEffect pf env (pageLoad st)).
Proof.
  induction ts as [|x ts IH] using rev_ind; intros p.
  - left. split; [exact id|reflexivity].
  - subst p. unfold EventLoop.turns in *. rewrite fold_left_app. cbn [fold_left].
    cbv zeta in IH.
    set (p := fold_left (EventLoop.turn pf env) ts (EventLoop.mount st)) in *.
    destruct IH as [[Hno Hp]|[Hin (t & Hh & Hg & Hm & Hf)]].
    + rewrite Hp. destruct x as [|i].
      * right. split; [apply in_or_app; right; now left|].
        cbn [EventLoop.turn].
        destruct (first_run_of_effect pf env st) as (t & w & -> & Hg & Hm & Hf).
        exists t. auto.
      * left. split; [|reflexivity].
        intros H. apply in_app_or in H as [H|[H|[]]]; [auto|discriminate].
    + right. split; [apply in_or_app; now left|]. destruct x as [|i].
      * cbn [EventLoop.turn]. unfold EventLoop.launchEffect. rewrite Hg.
        exists t. auto.
      * cbn [EventLoop.turn]. unfold EventLoop.resume. rewrite Hh.
        destruct i as [|i]; [|exists t; auto].
        cbn [lookup list_lookup]. destruct t as [o|piece]; [exists (Settled o); auto|].
        cbn [moves_on finish] in Hm, Hf. specialize (Hm (EventLoop.world p)).
        destruct (piece (EventLoop.world p)) as [t' w'].
        destruct Hm as [[Hg' _] Hm]. exists t'.
        cbn [EventLoop.handlers EventLoop.world]. auto.
Qed.

(** C3. The effect of the launch page may run any number of times, at
    any moment: twice in a row on mount, or again while the handler is
    suspended on the network. Whatever the order of these runs and of the
    pieces of the handler, the handler is started at most once, every run
    of the effect after the first changes nothing, and at no moment has
    more than one token exchange been posted. The handler comes to its
    end, and the page is then as a single uninterrupted run leaves it: in
    particular exactly one token exchange has been posted when the
    callback is one that reaches the exchange (valid parameters, matching
    state, stored issuer and verifier, a configuration with members and a
    client id). *)
Theorem duplicate_effect_single_exchange pf env st (ts : list EventLoop.Turn) :
  let p := EventLoop.turns pf env ts (EventLoop.mount st) in
  (length (EventLoop.handlers p) <= 1)%nat
  /\ (In EventLoop.RunEffect ts -> EventLoop.launchEffect pf env p = p)
  /\ (token_posts (trace (EventLoop.world p)) <= 1)%nat
  /\ (exists n, EventLoop.quiet
                  (EventLoop.turns pf env (repeat (EventLoop.Resume 0) n) p) = true)
  /\ (In EventLoop.RunEffect ts -> EventLoop.quiet p = true ->
      EventLoop.world p = launchEffect pf env (pageLoad st))
  /\ (In EventLoop.RunEffect ts -> EventLoop.quiet p = true ->
      truthy (params_get "error" (location_search env)) = false ->
      truthy (params_get "launch" (location_search env)) = false ->
      truthy (params_get "code" (location_search env)) = true ->
      truthy (params_get "state" (location_search env)) = true ->
      params_get "state" (location_search env) = st !! "smart_state" ->
      truthy (st !! "smart_iss") = true ->
      configuration_has_members env (js_string "" (st !! "smart_iss")) = true ->
      (exists cid, getClientId pf (location_search env) (js_string "" (st !! "smart_iss"))
                   = inr cid) ->
      truthy (st !! "smart_code_verifier") = true ->
      token_posts (trace (EventLoop.world p)) = 1%nat).
Proof.
  intros p.
  assert (Hq : forall t, EventLoop.handlers p = [t] -> EventLoop.quiet p = true ->
                         snd (finish t (EventLoop.world p)) = EventLoop.world p).
  { intros t Hh Hq. unfold EventLoop.quiet in Hq. rewrite Hh in Hq.
    destruct t; [reflexivity|discriminate]. }
  destruct (mounted_invariant pf env st ts) as [[Hno Hp]|[Hin (t & Hh & Hg & Hm & Hf)]];
    fold p in Hp || fold p in Hh, Hg, Hf.
  - rewrite Hp. split; [cbn; lia|]. split; [contradiction|]. split; [cbn; lia|].
    split; [exists 0%nat; reflexivity|]. split; contradiction.
  - split; [rewrite Hh; cbn; lia|].
    split; [intros _; unfold EventLoop.launchEffect; now rewrite Hg|].
    split.
    { pose proof (finish_later t (EventLoop.world p) Hm) as [_ Hpre].
      rewrite Hf in Hpre. apply token_posts_prefix in Hpre.
      pose proof (single_run_posts_at_most_once pf env st). lia. }
    split.
    { destruct (resume_settles pf env t (EventLoop.world p)) as [n Hn]. exists n.
      destruct p as [w hs]. cbn [EventLoop.handlers EventLoop.world] in *.
      now subst hs. }
    split; [intros _ Hquiet; rewrite <- Hf; symmetry; now apply Hq|].
    intros _ Hquiet He Hl Hc Ht Hs Hi Hr Hcid Hv.
    rewrite <- (Hq t Hh Hquiet), Hf. now apply callback_posts_once.
Qed.

Lemma duplicate_effect_single_exchange_witness :
  let env := page [("code", "abc"); ("state", "expected-state")] ehr_network in
  let ts := [ EventLoop.RunEffect; EventLoop.RunEffect;
              EventLoop.Resume 0; EventLoop.Resume 0; EventLoop.RunEffect;
              EventLoop.Resume 0; EventLoop.Resume 0; EventLoop.Resume 0 ] in
  let p := EventLoop.turns browser env ts (EventLoop.mount in_flight_store) in
  EventLoop.quiet p = true /\ token_posts (trace (EventLoop.world p)) = 1%nat.
Proof.
  intros env ts p.
  assert (Hq : EventLoop.quiet p = true) by (vm_compute; reflexivity).
  split; [exact Hq|].
  apply (duplicate_effect_single_exchange browser env in_flight_store ts).
  - right. left. reflexivity.
  - exact Hq.
  - reflexivity.
  - reflexivity.
  - reflexivity.
  - reflexivity.
  - vm_compute. reflexivity.
  - vm_compute. reflexivity.
  - vm_compute. reflexivity.
  - exists MEDPLUM_CLIENT_ID. vm_compute. reflexivity.
  - vm_compute. reflexivity.
Defined.

(** What the guard is for: two calls of the handler on the same
    callback, the second made while the first is suspended, both pass the
    validation and both exchange the code. *)
Example overlapping_handlers_exchange_twice :
  let env := page [("code", "abc"); ("state", "expected-state")] ehr_network in
  let call := acatch (await (EventLoop.handleSmartLaunch browser env))
                     (fun err => sync (setError (message err))) in
  let first := call (pageLoad in_flight_store) in
  let second := call (snd first) in
  let p := EventLoop.turns browser env
             [ EventLoop.Resume 0; EventLoop.Resume 1; EventLoop.Resume 0;
               EventLoop.Resume 1; EventLoop.Resume 0; EventLoop.Resume 1;
               EventLoop.Resume 0; EventLoop.Resume 1; EventLoop.Resume 0;
               EventLoop.Resume 1 ]
             (EventLoop.MkMounted (snd second) [fst first; fst second]) in
  EventLoop.quiet p = true /\ token_posts (trace (EventLoop.world p)) = 2%nat.
Proof. cbv zeta. split; vm_compute; reflexivity. Qed.

(** ** The page load without launch parameters *)

Lemma no_parameters_navigates_home pf env st :
  truthy (params_get "error" (location_search env)) = false ->
  truthy (params_get "launch" (location_search env)) = false ->
  truthy (params_get "code" (location_search env)) = false ->
  let w := launchEffect pf env (pageLoad st) in
  trace w = [Navigate "/"] /\ sessionStorage w = st /\ error w = None.
Proof.
  intros He Hl Hc w. subst w. wp_start. wp_run. repeat split.
Qed.

(** C4. With a finished session in the store ([smart_access_token] and
    [smart_patient]) and a query carrying neither [launch] nor [code],
    the page navigates to the home view ["/"]: the early return for the
    missing parameters comes first, and the branch that would navigate to
    ["/patient"] is never reached. *)
Theorem existing_session_navigates_home :
  truthy (session_store !! "smart_access_token") = true
  /\ truthy (session_store !! "smart_patient") = true
  /\ trace (launchEffect browser (page [] no_network) (pageLoad session_store)) = [Navigate "/"]
  /\ forall pf env st,
       truthy (params_get "error" (location_search env)) = false ->
       truthy (params_get "launch" (location_search env)) = false ->
       truthy (params_get "code" (location_search env)) = false ->
       trace (launchEffect pf env (pageLoad st)) <> [Navigate "/patient"].
Proof.
  split; [vm_compute; reflexivity|]. split; [vm_compute; reflexivity|].
  split; [vm_compute; reflexivity|].
  intros pf env st He Hl Hc.
  destruct (no_parameters_navigates_home pf env st He Hl Hc) as [-> _]. discriminate.
Qed.

Lemma existing_session_navigates_home_witness :
  trace (launchEffect browser (page [] no_network) (pageLoad session_store))
  <> [Navigate "/patient"].
Proof.
  apply (proj2 (proj2 (proj2 existing_session_navigates_home))); reflexivity.
Defined.

(** ** The standalone launcher of the home page *)

Lemma randomUUID_nonempty e : truthy (Some (randomUUID e)) = true.
Proof. reflexivity. Qed.

(** C10. A click on a standalone launcher writes nothing to the store
    and redirects with a fresh [state] and no [code_challenge]. When the
    authorization server then calls back with that state and a code, and
    the store has no [smart_state], the callback ends with the
    state-mismatch error and performs no network call at all, so no token
    exchange. *)
Theorem standalone_launch_callback_rejected pf home clientId iss w0 :
  let w1 := snd (SmartLaunch_handleClick home clientId iss w0) in
  sessionStorage w1 = sessionStorage w0
  /\ (exists q, trace w1 = (trace w0 ++ [LocationAssign iss q])%list
                /\ params_get "state" q = Some (randomUUID (entropy home))
                /\ params_get "code_challenge" q = None
                /\ params_get "code_challenge_method" q = None)
  /\ forall env,
       truthy (params_get "error" (location_search env)) = false ->
       truthy (params_get "launch" (location_search env)) = false ->
       truthy (params_get "code" (location_search env)) = true ->
       params_get "state" (location_search env) = Some (randomUUID (entropy home)) ->
       sessionStorage w1 !! "smart_state" = None ->
       let w2 := launchEffect pf env (pageLoad (sessionStorage w1)) in
       error w2 = Some (message StateMismatch)
       /\ trace w2 = []
       /\ token_posts (trace w2) = 0%nat.
Proof.
  intros w1. subst w1. split; [reflexivity|]. split.
  - eexists. repeat split.
  - intros env He Hl Hc Hs Hn w2. subst w2.
    change (sessionStorage (snd (SmartLaunch_handleClick home clientId iss w0)))
      with (sessionStorage w0) in *.
    pose proof (randomUUID_nonempty (entropy home)) as Hu. rewrite <- Hs in Hu.
    assert (Hne : params_get "state" (location_search env)
                  <> sessionStorage w0 !! "smart_state")
      by (rewrite Hs, Hn; discriminate).
    clear Hs Hn. wp_start. wp_run. repeat split.
Qed.

Lemma standalone_launch_callback_rejected_witness :
  let w1 := snd (SmartLaunch_handleClick (page [] no_network) MEDPLUM_CLIENT_ID
                   MEDPLUM_AUTH_URL (pageLoad ∅)) in
  let env := page [("code", "abc");
                   ("state", "00000000-0000-4000-8000-000000000000")] ehr_network in
  let w2 := launchEffect browser env (pageLoad (sessionStorage w1)) in
  error w2 = Some (message StateMismatch) /\ trace w2 = []
  /\ token_posts (trace w2) = 0%nat.
Proof.
  apply (standalone_launch_callback_rejected browser (page [] no_network) MEDPLUM_CLIENT_ID
           MEDPLUM_AUTH_URL (pageLoad ∅)).
  - reflexivity.
  - reflexivity.
  - reflexivity.
  - vm_compute. reflexivity.
  - vm_compute. reflexivity.
Defined.

(** ** Issuer configuration *)

Lemma includes_cons c s needle :
  includes (String c s) needle = String.prefix needle (String c s) || includes s needle.
Proof. reflexivity. Qed.

Lemma includes_app (a b needle : string) :
  includes b needle = true -> includes (a ++ b) needle = true.
Proof.
  intros H. induction a as [|c a IH]; [exact H|].
  change (String c a ++ b) with (String c (a ++ b)).
  rewrite includes_cons, IH. apply orb_true_r.
Qed.

Lemma fetchSmartConfiguration_known env iss w :
  includes iss "medplum.com" = true ->
  fetchSmartConfiguration env iss w = (Returned (JObject medplum_configuration), w).
Proof. intros H. unfold fetchSmartConfiguration. now rewrite H. Qed.

Lemma fetchSmartConfiguration_trace env iss w :
  includes iss "medplum.com" = false ->
  trace (snd (fetchSmartConfiguration env iss w))
  = (trace w ++ [Fetch (GET (iss ++ "/.well-known/smart-configuration"))])%list.
Proof.
  intros H. unfold fetchSmartConfiguration, fetch, response_json, bind, emit, ret, throw.
  rewrite H. cbn [fst snd].
  destruct (network env _) as [r|]; [|reflexivity].
  destruct (ok r); cbn [negb]; [|reflexivity].
  destruct (json r); reflexivity.
Qed.

(** C5, as the code has it. When the discovery fetch answers with a
    non-success status, resolution fails with the configuration-unavailable
    error naming the URL and the status. When it answers with success, the
    parsed document is returned as it is, whichever members it has: there
    is no check for the two endpoints and no malformed-configuration
    error. *)
Theorem fetchSmartConfiguration_outcomes env iss w r :
  includes iss "medplum.com" = false ->
  network env (GET (iss ++ "/.well-known/smart-configuration")) = Some r ->
  (ok r = false ->
   fst (fetchSmartConfiguration env iss w)
   = Thrown (ConfigurationUnavailable (iss ++ "/.well-known/smart-configuration")
               (status r) (statusText r)))
  /\ (forall cfg, ok r = true -> json r = Some cfg ->
      fst (fetchSmartConfiguration env iss w) = Returned cfg).
Proof.
  intros Hi Hn.
  unfold fetchSmartConfiguration, fetch, response_json, bind, emit, ret, throw.
  rewrite Hi. cbn [fst snd]. rewrite Hn. split.
  - intros ->. reflexivity.
  - intros cfg -> ->. reflexivity.
Qed.

Lemma fetchSmartConfiguration_outcomes_witness :
  fst (fetchSmartConfiguration (page [] ehr_network) "https://ehr.example.org" (pageLoad ∅))
  = Returned (JObject (list_to_map
                         [ ("authorization_endpoint", "https://ehr.example.org/authorize");
                           ("token_endpoint", "https://ehr.example.org/token") ])).
Proof.
  apply (fetchSmartConfiguration_outcomes (page [] ehr_network) "https://ehr.example.org"
           (pageLoad ∅)
           (json_response
              [ ("authorization_endpoint", "https://ehr.example.org/authorize");
                ("token_endpoint", "https://ehr.example.org/token") ])).
  - reflexivity.
  - reflexivity.
  - reflexivity.
  - reflexivity.
Defined.

(** C5, as stated, fails: a discovery document without the endpoint
    members is returned as the configuration, not rejected. *)
Lemma discovery_without_endpoints_returned :
  let result := fetchSmartConfiguration (page [] empty_discovery)
                  "https://ehr.example.org" (pageLoad ∅) in
  exists cfg, fst result = Returned (JObject cfg)
              /\ cfg !! "authorization_endpoint" = None
              /\ cfg !! "token_endpoint" = None.
Proof. exists ∅. vm_compute. repeat split. Qed.

(** C6, as the code has it. The built-in issuer is recognised by a
    case-sensitive search for the text [medplum.com] anywhere in the
    issuer string: every such issuer, in particular every URL under
    [https://api.medplum.com/], gets the built-in endpoint pair with no
    fetch; every other issuer gets one GET of
    [<issuer>/.well-known/smart-configuration]. *)
Theorem fetchSmartConfiguration_substring_policy env w :
  (forall iss, includes iss "medplum.com" = true ->
               fetchSmartConfiguration env iss w
               = (Returned (JObject medplum_configuration), w))
  /\ (forall path,
        fetchSmartConfiguration env ("https://api.medplum.com/" ++ path) w
        = (Returned (JObject medplum_configuration), w))
  /\ medplum_configuration !! "authorization_endpoint"
     = Some "https://api.medplum.com/oauth2/authorize"
  /\ medplum_configuration !! "token_endpoint"
     = Some "https://api.medplum.com/oauth2/token"
  /\ (forall iss, includes iss "medplum.com" = false ->
                  trace (snd (fetchSmartConfiguration env iss w))
                  = (trace w ++ [Fetch (GET (iss ++ "/.well-known/smart-configuration"))])%list).
Proof.
  split; [intros; now apply fetchSmartConfiguration_known|].
  split.
  { intros path. apply fetchSmartConfiguration_known.
    apply (includes_app "https://api." ("medplum.com/" ++ path)). reflexivity. }
  split; [vm_compute; reflexivity|]. split; [vm_compute; reflexivity|].
  intros; now apply fetchSmartConfiguration_trace.
Qed.

Lemma fetchSmartConfiguration_substring_policy_witness :
  fetchSmartConfiguration (page [] no_network) "https://api.medplum.com/fhir/R4" (pageLoad ∅)
  = (Returned (JObject medplum_configuration), pageLoad ∅)
  /\ trace (snd (fetchSmartConfiguration (page [] no_network) "https://ehr.example.org"
                   (pageLoad ∅)))
     = [Fetch (GET "https://ehr.example.org/.well-known/smart-configuration")].
Proof.
  split.
  - apply (proj1 (fetchSmartConfiguration_substring_policy
                    (page [] no_network) (pageLoad ∅))).
    reflexivity.
  - apply (proj2 (proj2 (proj2 (proj2 (fetchSmartConfiguration_substring_policy
                                         (page [] no_network) (pageLoad ∅)))))).
    reflexivity.
Defined.

(** C6, as stated, fails in both directions: an issuer on an unrelated
    host that merely mentions [medplum.com] in its path gets the built-in
    pair without a fetch, and an issuer on the recognised host written in
    capitals is sent to discovery. *)
Lemma issuer_recognition_is_not_by_host :
  (URL.hostname "https://ehr.example.org/medplum.com" = Some "ehr.example.org"
   /\ spec_recognized_host "ehr.example.org" = false
   /\ fst (fetchSmartConfiguration (page [] ehr_network)
             "https://ehr.example.org/medplum.com" (pageLoad ∅))
      = Returned (JObject medplum_configuration)
   /\ trace (snd (fetchSmartConfiguration (page [] ehr_network)
                    "https://ehr.example.org/medplum.com" (pageLoad ∅))) = [])
  /\ (URL.hostname "https://API.MEDPLUM.COM/fhir" = Some "api.medplum.com"
      /\ spec_recognized_host "api.medplum.com" = true
      /\ trace (snd (fetchSmartConfiguration (page [] ehr_network)
                       "https://API.MEDPLUM.COM/fhir" (pageLoad ∅)))
         = [Fetch (GET "https://API.MEDPLUM.COM/fhir/.well-known/smart-configuration")]).
Proof.
  split.
  - rewrite fetchSmartConfiguration_known by (vm_compute; reflexivity).
    repeat split; vm_compute; reflexivity.
  - rewrite fetchSmartConfiguration_trace by (vm_compute; reflexivity).
    repeat split; vm_compute; reflexivity.
Qed.

(** ** The client identifier across the handshake *)

Lemma truthy_Some (x : option string) : truthy x = true -> x = Some (js_string "" x).
Proof. destruct x; [reflexivity|discriminate]. Qed.

Lemma getClientId_same_parameter pf p1 p2 iss :
  params_get "client_id" p1 = params_get "client_id" p2 ->
  getClientId pf p1 iss = getClientId pf p2 iss.
Proof. intros H. unfold getClientId. now rewrite H. Qed.

(** The redirect of an initiation carries the client id selected from the
    page's parameters and the issuer it has just stored. *)
Lemma initiation_redirect_client pf env st c :
  let w := launchEffect pf env (pageLoad st) in
  In c (redirect_client_ids (trace w)) ->
  exists iss cid, sessionStorage w !! "smart_iss" = Some iss
                  /\ getClientId pf (location_search env) iss = inr cid
                  /\ c = Some cid.
Proof.
  intros w. subst w. wp_start. wp_run; try (intros []; fail);
    (intros [<-|[]]; eexists _, _;
     split; [now simplify_map_eq|split; [eassumption|reflexivity]]).
Qed.

(** The token exchange of a callback carries the client id selected from
    the page's parameters and the stored issuer. *)
Lemma callback_post_client pf env st c :
  In c (post_client_ids (trace (launchEffect pf env (pageLoad st)))) ->
  exists iss cid, st !! "smart_iss" = Some iss
                  /\ getClientId pf (location_search env) iss = inr cid
                  /\ c = Some cid.
Proof.
  wp_start. wp_run; try (intros []; fail);
    (intros [<-|[]]; eexists _, _;
     split; [now apply truthy_Some|split; [eassumption|reflexivity]]).
Qed.

(** C7, as the code has it. The client id is recomputed on each page
    load from that load's own query and the stored issuer. When the
    callback query carries the same [client_id] parameter as the initiation
    query (in particular when neither carries one), the client id in the
    authorization redirect is the client id in the token-exchange body. *)
Theorem client_id_agrees_when_parameter_agrees pf envI envC st c1 c2 :
  let wI := launchEffect pf envI (pageLoad st) in
  let wC := launchEffect pf envC (pageLoad (sessionStorage wI)) in
  params_get "client_id" (location_search envI)
  = params_get "client_id" (location_search envC) ->
  In c1 (redirect_client_ids (trace wI)) ->
  In c2 (post_client_ids (trace wC)) ->
  c1 = c2.
Proof.
  intros wI wC Hp H1 H2.
  apply initiation_redirect_client in H1 as (iss & cid & Hi & Hc & ->).
  apply callback_post_client in H2 as (iss' & cid' & Hi' & Hc' & ->).
  fold wI in Hi. rewrite Hi in Hi'. injection Hi' as <-.
  rewrite (getClientId_same_parameter pf _ _ iss Hp) in Hc. congruence.
Qed.

Lemma client_id_agrees_when_parameter_agrees_witness :
  let envI := page [("launch", "abc123"); ("iss", "https://ehr.example.org")] ehr_network in
  let envC := page [("code", "abc");
                    ("state", "00000000-0000-4000-8000-000000000000")] ehr_network in
  let wI := launchEffect browser envI (pageLoad ∅) in
  let wC := launchEffect browser envC (pageLoad (sessionStorage wI)) in
  In (Some MEDPLUM_CLIENT_ID) (redirect_client_ids (trace wI))
  /\ In (Some MEDPLUM_CLIENT_ID) (post_client_ids (trace wC))
  /\ Some MEDPLUM_CLIENT_ID = Some MEDPLUM_CLIENT_ID.
Proof.
  intros envI envC wI wC.
  assert (H1 : In (Some MEDPLUM_CLIENT_ID) (redirect_client_ids (trace wI)))
    by (vm_compute; left; reflexivity).
  assert (H2 : In (Some MEDPLUM_CLIENT_ID) (post_client_ids (trace wC)))
    by (vm_compute; left; reflexivity).
  split; [exact H1|]. split; [exact H2|].
  apply (client_id_agrees_when_parameter_agrees browser envI envC ∅);
    [reflexivity|exact H1|exact H2].
Defined.

(** C7, as stated, fails: an initiation with an explicit [client_id]
    redirects with that id, and the callback, whose query has only [code]
    and [state], exchanges the code under the default id. *)
Lemma explicit_client_id_lost_at_callback :
  let envI := page [("launch", "abc123"); ("iss", "https://ehr.example.org");
                    ("client_id", "custom-client")] ehr_network in
  let envC := page [("code", "abc");
                    ("state", "00000000-0000-4000-8000-000000000000")] ehr_network in
  let wI := launchEffect browser envI (pageLoad ∅) in
  let wC := launchEffect browser envC (pageLoad (sessionStorage wI)) in
  redirect_client_ids (trace wI) = [Some "custom-client"]
  /\ post_client_ids (trace wC) = [Some MEDPLUM_CLIENT_ID]
  /\ error wC = None
  /\ "custom-client" <> MEDPLUM_CLIENT_ID.
Proof.
  cbv zeta. split; [vm_compute; reflexivity|]. split; [vm_compute; reflexivity|].
  split; [vm_compute; reflexivity|]. discriminate.
Qed.

(** ** Initiation *)

(** The world left by an initiation that reaches the redirect. *)
Lemma initiation_redirect pf env st r cfg cid h :
  let s := location_search env in
  let iss := js_string "" (params_get "iss" s) in
  let endpoint := js_string "undefined" (cfg !! "authorization_endpoint") in
  truthy (params_get "error" s) = false ->
  truthy (params_get "launch" s) = true ->
  truthy (params_get "iss" s) = true ->
  includes iss "medplum.com" = false ->
  network env (GET (iss ++ "/.well-known/smart-configuration")) = Some r ->
  ok r = true ->
  json r = Some (JObject cfg) ->
  getClientId pf s iss = inr cid ->
  url_hostname pf endpoint = Some h ->
  launchEffect pf env (pageLoad st)
  = MkWorld
      (<["smart_code_verifier" := generateCodeVerifier (entropy env)]>
         (<["smart_state" := randomUUID (entropy env)]> (<["smart_iss" := iss]> st)))
      true None None
      [ Fetch (GET (iss ++ "/.well-known/smart-configuration"));
        LocationAssign endpoint
          [ ("response_type", "code");
            ("client_id", cid);
            ("scope", FHIR_SCOPE);
            ("redirect_uri", location_origin env ++ "/launch");
            ("state", randomUUID (entropy env));
            ("aud", iss);
            ("launch", js_string "null" (params_get "launch" s));
            ("code_challenge", generateCodeChallenge (generateCodeVerifier (entropy env)));
            ("code_challenge_method", "S256") ] ].
Proof.
  intros s iss endpoint He Hl Hi Hm Hn Hok Hj Hc Hu. subst s iss endpoint.
  wp_start. wp_run; reflexivity.
Qed.

(** C8. The launch [launch=abc123&iss=https://ehr.example.org], against
    an issuer whose discovery document is served and names a well-formed
    authorization endpoint (on a platform that accepts the issuer and the
    endpoint as URLs), performs the discovery GET and then redirects
    to that endpoint with [response_type=code], the issuer as [aud], the
    launch token, [code_challenge_method=S256] and a [code_challenge] of
    43 characters of the URL-safe base64 alphabet, which is the challenge
    of the stored verifier. The store then holds the issuer under
    [smart_iss] and non-empty values under [smart_state] (the [state] of
    the redirect) and [smart_code_verifier]. *)
Theorem ehr_launch_builds_redirect pf origin net ent st r cfg ep h hi :
  let env := MkEnv [("launch", "abc123"); ("iss", "https://ehr.example.org")]
                   origin net ent in
  url_hostname pf "https://ehr.example.org" = Some hi ->
  net (GET "https://ehr.example.org/.well-known/smart-configuration") = Some r ->
  ok r = true ->
  json r = Some (JObject cfg) ->
  cfg !! "authorization_endpoint" = Some ep ->
  url_hostname pf ep = Some h ->
  let w := launchEffect pf env (pageLoad st) in
  exists q challenge state verifier,
    trace w = [ Fetch (GET "https://ehr.example.org/.well-known/smart-configuration");
                LocationAssign ep q ]
    /\ params_get "response_type" q = Some "code"
    /\ params_get "aud" q = Some "https://ehr.example.org"
    /\ params_get "launch" q = Some "abc123"
    /\ params_get "code_challenge_method" q = Some "S256"
    /\ params_get "code_challenge" q = Some challenge
    /\ String.length challenge = 43%nat
    /\ URL.all_chars is_base64url_char challenge = true
    /\ challenge = generateCodeChallenge verifier
    /\ params_get "state" q = Some state
    /\ sessionStorage w !! "smart_iss" = Some "https://ehr.example.org"
    /\ sessionStorage w !! "smart_state" = Some state
    /\ state <> ""
    /\ sessionStorage w !! "smart_code_verifier" = Some verifier
    /\ verifier <> "".
Proof.
  intros env Hi Hn Hok Hj Hep Hu w. subst w.
  set (cid := if existsb (String.eqb hi) ["smarthealthit.org"]
              then SMART_HEALTH_IT_CLIENT_ID else MEDPLUM_CLIENT_ID).
  assert (Hc : getClientId pf (location_search env) "https://ehr.example.org" = inr cid).
  { unfold getClientId.
    change (params_get "client_id" (location_search env)) with (@None string).
    cbn [truthy]. rewrite Hi. subst cid.
    now destruct (existsb (String.eqb hi) ["smarthealthit.org"]). }
  assert (Hu' : url_hostname pf (js_string "undefined" (cfg !! "authorization_endpoint"))
                = Some h) by (rewrite Hep; exact Hu).
  rewrite (initiation_redirect pf env st r cfg cid h eq_refl eq_refl eq_refl eq_refl
             Hn Hok Hj Hc Hu').
  cbn [trace sessionStorage]. rewrite Hep.
  exists
    [ ("response_type", "code");
      ("client_id", cid);
      ("scope", FHIR_SCOPE);
      ("redirect_uri", origin ++ "/launch");
      ("state", randomUUID ent);
      ("aud", "https://ehr.example.org");
      ("launch", "abc123");
      ("code_challenge", generateCodeChallenge (generateCodeVerifier ent));
      ("code_challenge_method", "S256") ],
    (generateCodeChallenge (generateCodeVerifier ent)),
    (randomUUID ent), (generateCodeVerifier ent).
  split; [reflexivity|]. do 5 (split; [reflexivity|]).
  split; [apply generateCodeChallenge_length|].
  split; [apply generateCodeChallenge_alphabet|].
  do 2 (split; [reflexivity|]).
  split; [now simplify_map_eq|]. split; [now simplify_map_eq|].
  split; [discriminate|]. split; [now simplify_map_eq|].
  pose proof (generateCodeVerifier_length ent) as Hlen.
  intros Heq. rewrite Heq in Hlen. discriminate.
Qed.

Lemma ehr_launch_builds_redirect_witness :
  let w := launchEffect browser
             (MkEnv [("launch", "abc123"); ("iss", "https://ehr.example.org")]
                    app_origin ehr_network zero_entropy)
             (pageLoad ∅) in
  exists q challenge state verifier,
    trace w = [ Fetch (GET "https://ehr.example.org/.well-known/smart-configuration");
                LocationAssign "https://ehr.example.org/authorize" q ]
    /\ params_get "response_type" q = Some "code"
    /\ params_get "aud" q = Some "https://ehr.example.org"
    /\ params_get "launch" q = Some "abc123"
    /\ params_get "code_challenge_method" q = Some "S256"
    /\ params_get "code_challenge" q = Some challenge
    /\ String.length challenge = 43%nat
    /\ URL.all_chars is_base64url_char challenge = true
    /\ challenge = generateCodeChallenge verifier
    /\ params_get "state" q = Some state
    /\ sessionStorage w !! "smart_iss" = Some "https://ehr.example.org"
    /\ sessionStorage w !! "smart_state" = Some state
    /\ state <> ""
    /\ sessionStorage w !! "smart_code_verifier" = Some verifier
    /\ verifier <> "".
Proof.
  apply (ehr_launch_builds_redirect browser app_origin ehr_network zero_entropy ∅
           (json_response
              [ ("authorization_endpoint", "https://ehr.example.org/authorize");
                ("token_endpoint", "https://ehr.example.org/token") ])
           (list_to_map
              [ ("authorization_endpoint", "https://ehr.example.org/authorize");
                ("token_endpoint", "https://ehr.example.org/token") ])
           "https://ehr.example.org/authorize" "ehr.example.org" "ehr.example.org").
  - reflexivity.
  - reflexivity.
  - reflexivity.
  - reflexivity.
  - vm_compute. reflexivity.
  - vm_compute. reflexivity.
Defined.

(** ** The scenarios, run *)

(** A callback with matching state exchanges the code once, with the
    stored verifier, stores the session and removes the handshake keys. *)
Example successful_callback :
  let env := page [("code", "abc"); ("state", "expected-state")] ehr_network in
  let w := launchEffect browser env (pageLoad in_flight_store) in
  trace w
  = [ Fetch (GET "https://ehr.example.org/.well-known/smart-configuration");
      Fetch (POST "https://ehr.example.org/token"
               [ ("grant_type", "authorization_code");
                 ("code", "abc");
                 ("redirect_uri", "https://app.example.org/launch");
                 ("client_id", MEDPLUM_CLIENT_ID);
                 ("code_verifier", "stored-verifier") ]);
      Navigate "/patient" ]
  /\ error w = None
  /\ sessionStorage w !! "smart_access_token" = Some "tok1"
  /\ sessionStorage w !! "smart_patient" = Some "pat1"
  /\ sessionStorage w !! "smart_base_url" = Some "https://ehr.example.org"
  /\ sessionStorage w !! "smart_state" = None
  /\ sessionStorage w !! "smart_iss" = None
  /\ sessionStorage w !! "smart_code_verifier" = None.
Proof. cbv zeta. repeat split; vm_compute; reflexivity. Qed.

(** A provider error is surfaced before anything else is looked at. *)
Example provider_error :
  let env := page [("error", "access_denied"); ("error_description", "User said no");
                   ("code", "abc"); ("state", "expected-state")] ehr_network in
  let w := launchEffect browser env (pageLoad in_flight_store) in
  error w = Some "OAuth error: access_denied - User said no" /\ trace w = [].
Proof. cbv zeta. split; vm_compute; reflexivity. Qed.

(** A callback without a stored verifier fails after discovery and before
    the exchange. *)
Example missing_verifier :
  let env := page [("code", "abc"); ("state", "expected-state")] ehr_network in
  let w := launchEffect browser env (pageLoad (delete "smart_code_verifier" in_flight_store)) in
  error w = Some (message ExpiredSession)
  /\ trace w = [Fetch (GET "https://ehr.example.org/.well-known/smart-configuration")].
Proof. cbv zeta. split; vm_compute; reflexivity. Qed.

(** A callback without [state] reports the missing parameter. *)
Example missing_state :
  let env := page [("code", "abc")] ehr_network in
  let w := launchEffect browser env (pageLoad in_flight_store) in
  error w = Some "Missing required parameters in authorization response: state"
  /\ trace w = [].
Proof. cbv zeta. split; vm_compute; reflexivity. Qed.

(** The client id selector: explicit parameter, allow-listed host, default. *)
Example getClientId_precedence :
  getClientId browser [("client_id", "mine")] "https://smarthealthit.org" = inr "mine"
  /\ getClientId browser [] "https://smarthealthit.org/fhir" = inr SMART_HEALTH_IT_CLIENT_ID
  /\ getClientId browser [] "https://launch.smarthealthit.org/v/r4/fhir" = inr MEDPLUM_CLIENT_ID
  /\ getClientId browser [] "not a url" = inl (PlatformError "Invalid URL").
Proof. repeat split; vm_compute; reflexivity. Qed.

(** A non-success discovery answer aborts the initiation after the
    issuer has been stored. *)
Example discovery_unavailable :
  let net := fun _ : Request => Some (MkResponse false 404 "Not Found" "" None) in
  let env := page [("launch", "abc123"); ("iss", "https://ehr.example.org")] net in
  let w := launchEffect browser env (pageLoad ∅) in
  error w
  = Some ("Failed to fetch SMART configuration from "
          ++ "https://ehr.example.org/.well-known/smart-configuration: 404 Not Found")
  /\ sessionStorage w !! "smart_iss" = Some "https://ehr.example.org"
  /\ sessionStorage w !! "smart_state" = None.
Proof. cbv zeta. repeat split; vm_compute; reflexivity. Qed.

(** A token endpoint that answers [null]: the code is exchanged and the
    handshake keys are removed, and then the page fails on the first
    member it reads. An error is shown and there is no session. *)
Example null_token_body :
  let env := page [("code", "abc"); ("state", "expected-state")] (token_answer JNull) in
  let w := launchEffect browser env (pageLoad in_flight_store) in
  error w = Some "Cannot read properties of null (reading 'patient')"
  /\ token_posts (trace w) = 1%nat
  /\ navigations (trace w) = []
  /\ medplum w = None
  /\ sessionStorage w = ∅.
Proof. cbv zeta. repeat split; vm_compute; reflexivity. Qed.

(** An issuer that the Medplum library refuses is found out last: the
    code has been exchanged, the handshake keys are removed and the
    session keys are written when the constructor throws. *)
Example refused_issuer :
  let store := <["smart_iss" := "ftp://ehr.example.org"]> in_flight_store in
  let env := page [("code", "abc"); ("state", "expected-state")]
                  (token_answer (JObject (list_to_map [("access_token", "tok1");
                                                       ("patient", "pat1")]))) in
  let w := launchEffect browser env (pageLoad store) in
  error w = Some "Base URL must start with http or https"
  /\ navigations (trace w) = []
  /\ medplum w = None
  /\ sessionStorage w !! "smart_state" = None
  /\ sessionStorage w !! "smart_iss" = None
  /\ sessionStorage w !! "smart_code_verifier" = None
  /\ sessionStorage w !! "smart_access_token" = Some "tok1"
  /\ sessionStorage w !! "smart_base_url" = Some "ftp://ehr.example.org".
Proof. cbv zeta. repeat split; vm_compute; reflexivity. Qed.

(** * Further properties *)

(** ** Helper lemmas on strings *)

Lemma append_empty_r (s : string) : s ++ "" = s.
Proof.
  induction s as [|c s IH]; [reflexivity|].
  change (String c (s ++ "") = String c s). now f_equal.
Qed.

Lemma truthy_nonempty (x : option string) : truthy x = true -> js_string "" x <> "".
Proof. destruct x as [[|c s]|]; cbn; intros H; discriminate. Qed.

Lemma js_string_truthy a b (x : option string) :
  truthy x = true -> js_string a x = js_string b x.
Proof. destruct x; [reflexivity|discriminate]. Qed.

(** ** Further properties of the launch page *)

(** X1. A page load whose query carries a provider [error] does nothing
    but show it: no network call, no navigation, no redirect, no write to
    the store. The message joins the error and, when there is one, its
    description. *)
Theorem provider_error_only_shows_message pf env st :
  truthy (params_get "error" (location_search env)) = true ->
  let w := launchEffect pf env (pageLoad st) in
  let e := js_string "" (params_get "error" (location_search env)) in
  let d := params_get "error_description" (location_search env) in
  trace w = []
  /\ sessionStorage w = st
  /\ medplum w = None
  /\ error w = Some (if truthy d then "OAuth error: " ++ e ++ " - " ++ js_string "" d
                     else "OAuth error: " ++ e).
Proof.
  intros He w e d. subst w e d. wp_start. wp_run.
  split; [reflexivity|]. split; [reflexivity|]. split; [reflexivity|].
  cbn [message].
  destruct (truthy (params_get "error_description" (location_search env)));
    [reflexivity|].
  now rewrite append_empty_r.
Qed.

Lemma provider_error_only_shows_message_witness :
  let env := page [("error", "access_denied"); ("error_description", "User said no");
                   ("code", "abc"); ("state", "expected-state")] ehr_network in
  let w := launchEffect browser env (pageLoad in_flight_store) in
  trace w = []
  /\ sessionStorage w = in_flight_store
  /\ medplum w = None
  /\ error w = Some "OAuth error: access_denied - User said no".
Proof.
  apply (provider_error_only_shows_message browser
           (page [("error", "access_denied"); ("error_description", "User said no");
                  ("code", "abc"); ("state", "expected-state")] ehr_network)
           in_flight_store).
  reflexivity.
Defined.

Ltac in_shapes := cbn [In map kind]; repeat (first [left; reflexivity | right]).

(** X2. What one page load can do, in full. Its effects are, in order,
    at most one discovery GET, then at most one token POST, then at most
    one navigation or redirect, which comes last. The page ends with an
    error message exactly when it neither navigates nor redirects; it
    never navigates after a failure, never redirects after a token
    exchange and never repeats a network call. *)
Theorem page_load_trace_shapes pf env st :
  let w := launchEffect pf env (pageLoad st) in
  let kinds := map kind (trace w) in
  (is_Some (error w) /\ In kinds [[]; [KGet]; [KPost]; [KGet; KPost]])
  \/ (error w = None
      /\ In kinds [[KNavigate]; [KRedirect]; [KGet; KRedirect];
                   [KPost; KNavigate]; [KGet; KPost; KNavigate]]).
Proof.
  intros w kinds. subst w kinds. wp_start. wp_run;
    first [ left; split; [eexists; reflexivity | solve [in_shapes]]
          | right; split; [reflexivity | solve [in_shapes]] ].
Qed.

(** X3. Every token exchange a page load performs follows a successful
    validation and carries the stored secrets: the query has no provider
    error and no [launch], its [code] and [state] are present, the [state]
    is the stored [smart_state], and the body is the authorization-code
    grant with that [code], the redirect URI of the app, the selected
    client id and, as [code_verifier], the stored [smart_code_verifier]. *)
Theorem token_exchange_follows_validation pf env st url body :
  In (Fetch (POST url body)) (trace (launchEffect pf env (pageLoad st))) ->
  let s := location_search env in
  truthy (params_get "error" s) = false
  /\ truthy (params_get "launch" s) = false
  /\ truthy (params_get "code" s) = true
  /\ truthy (params_get "state" s) = true
  /\ params_get "state" s = st !! "smart_state"
  /\ exists code iss cid verifier,
       params_get "code" s = Some code
       /\ st !! "smart_iss" = Some iss
       /\ getClientId pf s iss = inr cid
       /\ st !! "smart_code_verifier" = Some verifier
       /\ verifier <> ""
       /\ body = [ ("grant_type", "authorization_code");
                   ("code", code);
                   ("redirect_uri", location_origin env ++ "/launch");
                   ("client_id", cid);
                   ("code_verifier", verifier) ].
Proof.
  intros H s. subst s. revert H. wp_start.
  wp_run; cbn [In]; intros H;
    repeat (destruct H as [H|H]; try discriminate H); try contradiction;
    injection H as <- <-;
    repeat (split; [assumption || reflexivity|]);
    match goal with
    | Hi : truthy (?st !! "smart_iss") = true,
      Hv : truthy (?st !! "smart_code_verifier") = true,
      Hc : truthy (params_get "code" ?s) = true,
      Hg : getClientId _ _ _ = inr ?cid |- _ =>
        exists (js_string "" (params_get "code" s)), (js_string "" (st !! "smart_iss")),
               cid, (js_string "" (st !! "smart_code_verifier"));
        split; [exact (truthy_Some _ Hc)|];
        split; [exact (truthy_Some _ Hi)|];
        split; [exact Hg|];
        split; [exact (truthy_Some _ Hv)|];
        split; [exact (truthy_nonempty _ Hv)|];
        rewrite (js_string_truthy "null" "" _ Hc); reflexivity
    end.
Qed.

Lemma token_exchange_follows_validation_witness :
  let env := page [("code", "abc"); ("state", "expected-state")] ehr_network in
  In (Fetch (POST "https://ehr.example.org/token"
               [ ("grant_type", "authorization_code");
                 ("code", "abc");
                 ("redirect_uri", "https://app.example.org/launch");
                 ("client_id", MEDPLUM_CLIENT_ID);
                 ("code_verifier", "stored-verifier") ]))
     (trace (launchEffect browser env (pageLoad in_flight_store)))
  /\ params_get "state" (location_search env) = in_flight_store !! "smart_state".
Proof.
  intros env.
  assert (H : In (Fetch (POST "https://ehr.example.org/token"
                           [ ("grant_type", "authorization_code");
                             ("code", "abc");
                             ("redirect_uri", "https://app.example.org/launch");
                             ("client_id", MEDPLUM_CLIENT_ID);
                             ("code_verifier", "stored-verifier") ]))
                 (trace (launchEffect browser env (pageLoad in_flight_store))))
    by (vm_compute; right; left; reflexivity).
  split; [exact H|].
  exact (proj1 (proj2 (proj2 (proj2 (proj2
           (token_exchange_follows_validation browser env in_flight_store _ _ H)))))).
Defined.

(** The facts of a page load that navigates to the dashboard. *)
Lemma dashboard_navigation_facts pf env st :
  let w := launchEffect pf env (pageLoad st) in
  In "/patient" (navigations (trace w)) ->
  exists url body r tokenData iss,
    In (Fetch (POST url body)) (trace w)
    /\ network env (POST url body) = Some r
    /\ ok r = true
    /\ json r = Some (JObject tokenData)
    /\ st !! "smart_iss" = Some iss
    /\ sessionStorage w !! "smart_patient"
       = Some (js_string "undefined" (tokenData !! "patient"))
    /\ sessionStorage w !! "smart_access_token"
       = Some (js_string "undefined" (tokenData !! "access_token"))
    /\ sessionStorage w !! "smart_base_url" = Some iss
    /\ sessionStorage w !! "smart_state" = None
    /\ sessionStorage w !! "smart_iss" = None
    /\ sessionStorage w !! "smart_code_verifier" = None
    /\ (forall k, ~ In k ["smart_patient"; "smart_access_token"; "smart_base_url";
                          "smart_state"; "smart_iss"; "smart_code_verifier"] ->
                  sessionStorage w !! k = st !! k)
    /\ medplum w = Some (MkMedplumClient iss "" (tokenData !! "access_token"))
    /\ medplum_rejects pf (MkMedplumClient iss "" (tokenData !! "access_token")) = None
    /\ error w = None
    /\ truthy (params_get "error" (location_search env)) = false
    /\ truthy (params_get "launch" (location_search env)) = false
    /\ truthy (params_get "code" (location_search env)) = true
    /\ truthy (params_get "state" (location_search env)) = true
    /\ iss <> "".
Proof.
  intros w. subst w. wp_start.
  wp_run; cbn [navigations In]; intros H;
    repeat (destruct H as [H|H]; try discriminate H); try contradiction;
    match goal with
    | Hi : truthy (?st !! "smart_iss") = true,
      Hn : network _ (POST ?url ?body) = Some ?r,
      Hj : json ?r = Some (JObject ?g),
      Hm : medplum_rejects _ _ = None |- _ =>
        exists url, body, r, g, (js_string "" (st !! "smart_iss"));
        split; [cbn [In]; tauto|];
        split; [exact Hn|]; split; [assumption|]; split; [exact Hj|];
        split; [exact (truthy_Some _ Hi)|];
        do 6 (split; [now simplify_map_eq|]);
        split; [|split; [reflexivity|]; split; [exact Hm|]; split; [reflexivity|];
                 repeat (split; [assumption || reflexivity|]);
                 exact (truthy_nonempty _ Hi)];
        intros k Hk; cbn [In] in Hk;
        rewrite !lookup_insert_ne, !lookup_delete_ne by (intros <-; tauto);
        reflexivity
    end.
Qed.



(** X5. Every authorization redirect is backed by the store it leaves
    behind: its [state] is the stored [smart_state], its [code_challenge]
    is the S256 challenge of the stored [smart_code_verifier], its [aud]
    is the stored [smart_iss] and the [iss] of the query, and it passes on
    the [launch] token of the query. The verifier itself is not a
    parameter of the redirect. *)
Theorem redirect_backed_by_store pf env st endpoint q :
  let w := launchEffect pf env (pageLoad st) in
  In (LocationAssign endpoint q) (trace w) ->
  exists iss state verifier cid,
    params_get "iss" (location_search env) = Some iss
    /\ sessionStorage w !! "smart_iss" = Some iss
    /\ sessionStorage w !! "smart_state" = Some state
    /\ sessionStorage w !! "smart_code_verifier" = Some verifier
    /\ q = [ ("response_type", "code");
             ("client_id", cid);
             ("scope", "launch/patient patient/*.read");
             ("redirect_uri", location_origin env ++ "/launch");
             ("state", state);
             ("aud", iss);
             ("launch", js_string "" (params_get "launch" (location_search env)));
             ("code_challenge", generateCodeChallenge verifier);
             ("code_challenge_method", "S256") ]
    /\ params_get "code_verifier" q = None
    /\ truthy (params_get "launch" (location_search env)) = true.
Proof.
  intros w. subst w. wp_start.
  wp_run; cbn [In]; intros H;
    repeat (destruct H as [H|H]; try discriminate H); try contradiction;
    injection H as <- <-;
    match goal with
    | Hi : truthy (params_get "iss" ?s) = true,
      Hl : truthy (params_get "launch" ?s) = true,
      Hg : getClientId _ _ _ = inr ?cid |- _ =>
        exists (js_string "" (params_get "iss" s)), (randomUUID (entropy env)),
               (generateCodeVerifier (entropy env)), cid;
        split; [exact (truthy_Some _ Hi)|];
        do 3 (split; [now simplify_map_eq|]);
        split; [rewrite (js_string_truthy "null" "" _ Hl); reflexivity|];
        split; reflexivity
    end.
Qed.

Lemma redirect_backed_by_store_witness :
  let env := page [("launch", "abc123"); ("iss", "https://ehr.example.org")] ehr_network in
  let w := launchEffect browser env (pageLoad ∅) in
  let q := [ ("response_type", "code");
             ("client_id", MEDPLUM_CLIENT_ID);
             ("scope", FHIR_SCOPE);
             ("redirect_uri", "https://app.example.org/launch");
             ("state", "00000000-0000-4000-8000-000000000000");
             ("aud", "https://ehr.example.org");
             ("launch", "abc123");
             ("code_challenge", generateCodeChallenge (generateCodeVerifier zero_entropy));
             ("code_challenge_method", "S256") ] in
  In (LocationAssign "https://ehr.example.org/authorize" q) (trace w)
  /\ params_get "code_verifier" q = None.
Proof.
  intros env w q.
  assert (H : In (LocationAssign "https://ehr.example.org/authorize" q) (trace w))
    by (vm_compute; right; left; reflexivity).
  split; [exact H|].
  destruct (redirect_backed_by_store browser env ∅ _ _ H)
    as (iss & state & verifier & cid & _ & _ & _ & _ & _ & Hv & _).
  exact Hv.
Defined.

(** X6. A launch without an issuer is refused at once: the page shows
    the missing-issuer message and has stored nothing and contacted no
    one. *)
Theorem launch_without_issuer pf env st :
  truthy (params_get "error" (location_search env)) = false ->
  truthy (params_get "launch" (location_search env)) = true ->
  truthy (params_get "iss" (location_search env)) = false ->
  let w := launchEffect pf env (pageLoad st) in
  error w = Some "Missing iss parameter for EHR launch"
  /\ trace w = []
  /\ sessionStorage w = st.
Proof.
  intros He Hl Hi w. subst w. wp_start. wp_run; repeat split.
Qed.

Lemma launch_without_issuer_witness :
  let w := launchEffect browser (page [("launch", "abc123")] ehr_network)
             (pageLoad in_flight_store) in
  error w = Some "Missing iss parameter for EHR launch"
  /\ trace w = []
  /\ sessionStorage w = in_flight_store.
Proof.
  apply (launch_without_issuer browser
           (page [("launch", "abc123")] ehr_network) in_flight_store);
    reflexivity.
Defined.

(** X7. An initiation whose discovery is answered with a non-success
    status stops there, half done: the issuer has already been written to
    [smart_iss], but no state and no verifier are generated, so whatever
    [smart_state] and [smart_code_verifier] an earlier attempt left are
    still in the store, now beside the new issuer. *)
Theorem failed_discovery_leaves_issuer_only pf env st r :
  let s := location_search env in
  let iss := js_string "" (params_get "iss" s) in
  truthy (params_get "error" s) = false ->
  truthy (params_get "launch" s) = true ->
  truthy (params_get "iss" s) = true ->
  includes iss "medplum.com" = false ->
  network env (GET (iss ++ "/.well-known/smart-configuration")) = Some r ->
  ok r = false ->
  let w := launchEffect pf env (pageLoad st) in
  sessionStorage w = <["smart_iss" := iss]> st
  /\ sessionStorage w !! "smart_state" = st !! "smart_state"
  /\ sessionStorage w !! "smart_code_verifier" = st !! "smart_code_verifier"
  /\ trace w = [Fetch (GET (iss ++ "/.well-known/smart-configuration"))]
  /\ error w = Some (message (ConfigurationUnavailable
                                (iss ++ "/.well-known/smart-configuration")
                                (status r) (statusText r))).
Proof.
  intros s iss He Hl Hi Hm Hn Hok w. subst s iss w. wp_start.
  wp_run; (split; [reflexivity|]); (split; [now simplify_map_eq|]);
    (split; [now simplify_map_eq|]); split; reflexivity.
Qed.

Lemma failed_discovery_leaves_issuer_only_witness :
  let net := fun _ : Request => Some (MkResponse false 404 "Not Found" "" None) in
  let env := page [("launch", "abc123"); ("iss", "https://other.example.org")] net in
  let w := launchEffect browser env (pageLoad in_flight_store) in
  sessionStorage w = <["smart_iss" := "https://other.example.org"]> in_flight_store
  /\ sessionStorage w !! "smart_state" = in_flight_store !! "smart_state"
  /\ sessionStorage w !! "smart_code_verifier" = in_flight_store !! "smart_code_verifier"
  /\ trace w = [Fetch (GET "https://other.example.org/.well-known/smart-configuration")]
  /\ error w = Some (message (ConfigurationUnavailable
                                "https://other.example.org/.well-known/smart-configuration"
                                404 "Not Found")).
Proof.
  apply (failed_discovery_leaves_issuer_only browser
           (page [("launch", "abc123"); ("iss", "https://other.example.org")]
                 (fun _ : Request => Some (MkResponse false 404 "Not Found" "" None)))
           in_flight_store (MkResponse false 404 "Not Found" "" None));
    reflexivity.
Defined.

(** A callback proper whose [state] is not the stored one is rejected
    before any effect. *)
Lemma mismatched_callback pf env st :
  truthy (params_get "error" (location_search env)) = false ->
  truthy (params_get "launch" (location_search env)) = false ->
  truthy (params_get "code" (location_search env)) = true ->
  truthy (params_get "state" (location_search env)) = true ->
  params_get "state" (location_search env) <> st !! "smart_state" ->
  let w := launchEffect pf env (pageLoad st) in
  error w = Some (message StateMismatch) /\ trace w = [] /\ sessionStorage w = st.
Proof.
  intros He Hl Hc Hs Hne w. subst w. wp_start. wp_run. repeat split.
Qed.

(** X8. The anti-forgery state is good for one exchange only. When a
    callback has taken the page to the dashboard, the same callback URL
    loaded again (reload, back button) is rejected with the state-mismatch
    error before any network call, and the session just stored is left
    alone. *)
Theorem callback_replay_rejected pf env st :
  let w1 := launchEffect pf env (pageLoad st) in
  In "/patient" (navigations (trace w1)) ->
  let w2 := launchEffect pf env (pageLoad (sessionStorage w1)) in
  error w2 = Some (message StateMismatch)
  /\ trace w2 = []
  /\ sessionStorage w2 = sessionStorage w1.
Proof.
  intros w1 H w2.
  destruct (dashboard_navigation_facts pf env st H)
    as (url & body & r & g & iss & _ & _ & _ & _ & _ & _ & _ & _ & Hst & _ & _ & _ & _
        & _ & _ & He & Hl & Hc & Hs & _).
  subst w1 w2. cbv zeta in Hst.
  apply mismatched_callback; try assumption.
  rewrite Hst. intros Heq. rewrite Heq in Hs. discriminate.
Qed.

Lemma callback_replay_rejected_witness :
  let env := page [("code", "abc"); ("state", "expected-state")] ehr_network in
  let w1 := launchEffect browser env (pageLoad in_flight_store) in
  let w2 := launchEffect browser env (pageLoad (sessionStorage w1)) in
  In "/patient" (navigations (trace w1))
  /\ error w2 = Some (message StateMismatch)
  /\ trace w2 = []
  /\ sessionStorage w2 = sessionStorage w1.
Proof.
  intros env w1 w2.
  assert (H : In "/patient" (navigations (trace w1))) by (vm_compute; left; reflexivity).
  split; [exact H|].
  exact (callback_replay_rejected browser env in_flight_store H).
Defined.

(** X9. A callback that passes validation but finds no stored verifier
    fails with the expired-session error after the configuration has been
    resolved and before the token endpoint is contacted; the store is left
    as it was. *)
Theorem missing_verifier_stops_before_exchange pf env st :
  let s := location_search env in
  truthy (params_get "error" s) = false ->
  truthy (params_get "launch" s) = false ->
  truthy (params_get "code" s) = true ->
  truthy (params_get "state" s) = true ->
  params_get "state" s = st !! "smart_state" ->
  truthy (st !! "smart_iss") = true ->
  configuration_resolves env (js_string "" (st !! "smart_iss")) = true ->
  (exists cid, getClientId pf s (js_string "" (st !! "smart_iss")) = inr cid) ->
  truthy (st !! "smart_code_verifier") = false ->
  let w := launchEffect pf env (pageLoad st) in
  error w = Some "Missing code verifier - session may have expired"
  /\ token_posts (trace w) = 0%nat
  /\ navigations (trace w) = []
  /\ sessionStorage w = st.
Proof.
  intros s He Hl Hc Hs Hm Hi Hr [cid Hcid] Hv w. subst s w.
  unfold configuration_resolves in Hr. wp_start. wp_run; repeat split.
Qed.

Lemma missing_verifier_stops_before_exchange_witness :
  let env := page [("code", "abc"); ("state", "expected-state")] ehr_network in
  let w := launchEffect browser env (pageLoad (delete "smart_code_verifier" in_flight_store)) in
  error w = Some "Missing code verifier - session may have expired"
  /\ token_posts (trace w) = 0%nat
  /\ navigations (trace w) = []
  /\ sessionStorage w = delete "smart_code_verifier" in_flight_store.
Proof.
  apply (missing_verifier_stops_before_exchange browser
           (page [("code", "abc"); ("state", "expected-state")] ehr_network)
           (delete "smart_code_verifier" in_flight_store)).
  - reflexivity.
  - reflexivity.
  - reflexivity.
  - reflexivity.
  - vm_compute. reflexivity.
  - vm_compute. reflexivity.
  - vm_compute. reflexivity.
  - exists MEDPLUM_CLIENT_ID. vm_compute. reflexivity.
  - vm_compute. reflexivity.
Defined.

(** X10. A token endpoint that answers with a non-success status ends
    the handshake with an error that carries the status and the response
    text. Nothing is written: no session keys appear, the handshake keys
    stay, the Medplum client is not replaced and the page does not
    navigate. *)
Theorem token_exchange_refused pf env st url body r :
  let w := launchEffect pf env (pageLoad st) in
  In (Fetch (POST url body)) (trace w) ->
  network env (POST url body) = Some r ->
  ok r = false ->
  error w = Some ("Failed to get access token: " ++ pretty (status r) ++ " " ++ text r)
  /\ sessionStorage w = st
  /\ medplum w = None
  /\ navigations (trace w) = [].
Proof.
  intros w. subst w. wp_start.
  wp_run; cbn [In]; intros H;
    repeat (destruct H as [H|H]; try discriminate H); try contradiction;
    injection H as <- <-; intros Hn Hok; simplify_eq;
    try (exfalso; congruence); repeat split.
Qed.

Lemma token_exchange_refused_witness :
  let net := fun req : Request =>
               match req with
               | GET _ => ehr_network req
               | POST _ _ => Some (MkResponse false 400 "Bad Request" "invalid_grant" None)
               end in
  let env := page [("code", "abc"); ("state", "expected-state")] net in
  let w := launchEffect browser env (pageLoad in_flight_store) in
  error w = Some "Failed to get access token: 400 invalid_grant"
  /\ sessionStorage w = in_flight_store
  /\ medplum w = None
  /\ navigations (trace w) = [].
Proof.
  intros net env.
  apply (token_exchange_refused browser env in_flight_store "https://ehr.example.org/token"
           [ ("grant_type", "authorization_code");
             ("code", "abc");
             ("redirect_uri", "https://app.example.org/launch");
             ("client_id", MEDPLUM_CLIENT_ID);
             ("code_verifier", "stored-verifier") ]
           (MkResponse false 400 "Bad Request" "invalid_grant" None)).
  - vm_compute. right. left. reflexivity.
  - reflexivity.
  - reflexivity.
Defined.




(** ** The encoding, read back *)

Lemma Z_of_byte_range (b : byte) : 0 <= SHA256.Z_of_byte b < 256.
Proof.
  unfold SHA256.Z_of_byte. pose proof (Byte.to_N_bounded b) as H. lia.
Qed.

Lemma byte_of_Z_of_byte (b : byte) : SHA256.byte_of_Z (SHA256.Z_of_byte b) = b.
Proof.
  unfold SHA256.byte_of_Z. rewrite Z.mod_small by apply Z_of_byte_range.
  unfold SHA256.Z_of_byte. rewrite N2Z.id, Byte.of_to_N. reflexivity.
Qed.

Lemma lor_shiftl_small (y x n : Z) :
  0 <= n -> 0 <= x < 2 ^ n -> Z.lor (Z.shiftl y n) x = y * 2 ^ n + x.
Proof.
  intros Hn Hx. rewrite <- Z.shiftl_mul_pow2 by lia.
  rewrite <- Z.lxor_lor, <- Z.add_nocarry_lxor; try reflexivity.
  all: apply Z.bits_inj'; intros k Hk; rewrite Z.land_spec, Z.bits_0;
    destruct (Z.lt_ge_cases k n);
    [ rewrite Z.shiftl_spec_low by lia; reflexivity
    | rewrite <- (Z.mod_small x (2 ^ n)) by lia;
      rewrite Z.mod_pow2_bits_high by lia; apply andb_false_r ].
Qed.

Lemma quantum_value (a b c : byte) :
  quantum a b c
  = SHA256.Z_of_byte a * 65536 + SHA256.Z_of_byte b * 256 + SHA256.Z_of_byte c.
Proof.
  pose proof (Z_of_byte_range a). pose proof (Z_of_byte_range b).
  pose proof (Z_of_byte_range c).
  unfold quantum.
  rewrite (lor_shiftl_small (SHA256.Z_of_byte a) (Z.shiftl (SHA256.Z_of_byte b) 8) 16)
    by (rewrite ?Z.shiftl_mul_pow2; lia).
  rewrite Z.shiftl_mul_pow2 by lia.
  replace (SHA256.Z_of_byte a * 2 ^ 16 + SHA256.Z_of_byte b * 2 ^ 8)
    with (Z.shiftl (SHA256.Z_of_byte a * 256 + SHA256.Z_of_byte b) 8)
    by (rewrite Z.shiftl_mul_pow2; lia).
  rewrite lor_shiftl_small by lia. lia.
Qed.

Lemma sextet_value (k q : Z) :
  0 <= k <= 3 -> sextet k q = (q / 2 ^ (6 * (3 - k))) mod 64.
Proof.
  intros Hk. unfold sextet. change 63 with (Z.ones 6).
  rewrite Z.land_ones, Z.shiftr_div_pow2 by lia. reflexivity.
Qed.

Lemma sextets_of_quantum (a b c : byte) :
  let q := quantum a b c in
  quantum_of_sextets (sextet 0 q) (sextet 1 q) (sextet 2 q) (sextet 3 q) = q.
Proof.
  intros q. subst q. rewrite !sextet_value by lia. rewrite quantum_value.
  pose proof (Z_of_byte_range a). pose proof (Z_of_byte_range b).
  pose proof (Z_of_byte_range c).
  unfold quantum_of_sextets. cbn [Z.sub Z.mul Z.pow Z.opp Z.add Z.pos_sub Z.pow_pos
    Pos.iter Pos.mul Pos.add Pos.succ Pos.pred_double Z.succ_double Z.pred_double Z.double].
  Z.div_mod_to_equations. lia.
Qed.

Lemma sextet_zero_low (k : Z) (a b c : byte) :
  0 <= k <= 3 ->
  (quantum a b c) mod 2 ^ (6 * (4 - k)) = 0 -> sextet k (quantum a b c) = 0.
Proof.
  intros Hk Hm. rewrite sextet_value by lia.
  assert (Hs : 6 * (4 - k) = 6 * (3 - k) + 6) by lia.
  rewrite Hs, Z.pow_add_r in Hm by lia.
  change (2 ^ 6) with 64 in Hm.
  pose proof (Z.pow_pos_nonneg 2 (6 * (3 - k))) as Hp.
  assert (0 < 2 ^ (6 * (3 - k))) by (apply Hp; lia).
  rewrite Z.rem_mul_r in Hm by lia.
  pose proof (Z.mod_pos_bound (quantum a b c) (2 ^ (6 * (3 - k)))).
  pose proof (Z.mod_pos_bound (quantum a b c / 2 ^ (6 * (3 - k))) 64).
  nia.
Qed.

Lemma quantum_byte_value (k q : Z) (x : byte) :
  0 <= k <= 2 ->
  (q / 2 ^ (8 * (2 - k))) mod 256 = SHA256.Z_of_byte x ->
  quantum_byte k q = x.
Proof.
  intros Hk H. unfold quantum_byte, SHA256.byte_of_Z.
  rewrite Z.shiftr_div_pow2, H by lia.
  rewrite <- (byte_of_Z_of_byte x) at 2. unfold SHA256.byte_of_Z.
  rewrite Z.mod_small by apply Z_of_byte_range. reflexivity.
Qed.

Lemma quantum_bytes (a b c : byte) :
  let q := quantum a b c in
  quantum_byte 0 q = a /\ quantum_byte 1 q = b /\ quantum_byte 2 q = c.
Proof.
  intros q. subst q.
  pose proof (Z_of_byte_range a). pose proof (Z_of_byte_range b).
  pose proof (Z_of_byte_range c).
  repeat split; apply quantum_byte_value; try lia; rewrite quantum_value;
    cbn [Z.sub Z.mul Z.pow Z.opp Z.add Z.pos_sub Z.pow_pos
         Pos.iter Pos.mul Pos.add Pos.succ Pos.pred_double Z.succ_double Z.pred_double
         Z.double];
    Z.div_mod_to_equations; lia.
Qed.

Lemma sextet_of_sextet_char i :
  0 <= i < 64 -> sextet_of_char (sextet_char base64url_alphabet i) = Some i.
Proof.
  revert i. apply below_64_cases. intros n Hn.
  do 64 (destruct n as [|n]; [reflexivity|]). lia.
Qed.

Lemma quantum_tail1 (a : byte) :
  quantum_of_sextets (sextet 0 (quantum a x00 x00)) (sextet 1 (quantum a x00 x00)) 0 0
  = quantum a x00 x00.
Proof.
  pose proof (sextets_of_quantum a x00 x00) as Hq. cbv zeta in Hq.
  rewrite (sextet_zero_low 2), (sextet_zero_low 3) in Hq; try lia; try exact Hq.
  all: rewrite quantum_value; change (SHA256.Z_of_byte x00) with 0;
    pose proof (Z_of_byte_range a); cbn [Z.sub Z.mul Z.pow Z.pow_pos Pos.iter Pos.mul Z.add Z.pos_sub Z.opp Pos.pred_double];
    Z.div_mod_to_equations; lia.
Qed.

Lemma quantum_tail2 (a b : byte) :
  quantum_of_sextets (sextet 0 (quantum a b x00)) (sextet 1 (quantum a b x00))
                     (sextet 2 (quantum a b x00)) 0
  = quantum a b x00.
Proof.
  pose proof (sextets_of_quantum a b x00) as Hq. cbv zeta in Hq.
  rewrite (sextet_zero_low 3) in Hq; try lia; try exact Hq.
  rewrite quantum_value; change (SHA256.Z_of_byte x00) with 0;
    pose proof (Z_of_byte_range a); pose proof (Z_of_byte_range b);
    cbn [Z.sub Z.mul Z.pow Z.pow_pos Pos.iter Pos.mul Z.add Z.pos_sub Z.opp Pos.pred_double];
    Z.div_mod_to_equations; lia.
Qed.

Lemma base64url_decode_nopad (bs : list byte) :
  base64url_decode (base64url_nopad bs) = Some bs.
Proof.
  induction bs as [|a|a b|a b c l IH] using list_ind3.
  - reflexivity.
  - cbn [base64url_nopad base64url_decode].
    rewrite !sextet_of_sextet_char by apply sextet_range. cbv beta iota zeta.
    rewrite quantum_tail1. now destruct (quantum_bytes a x00 x00) as (-> & _).
  - cbn [base64url_nopad base64url_decode].
    rewrite !sextet_of_sextet_char by apply sextet_range. cbv beta iota zeta.
    rewrite quantum_tail2. now destruct (quantum_bytes a b x00) as (-> & -> & _).
  - cbn [base64url_nopad base64url_decode].
    rewrite !sextet_of_sextet_char by apply sextet_range.
    rewrite IH. cbv beta iota zeta. rewrite sextets_of_quantum.
    now destruct (quantum_bytes a b c) as (-> & -> & ->).
Qed.

Lemma base64url_nopad_inj (b1 b2 : list byte) :
  base64url_nopad b1 = base64url_nopad b2 -> b1 = b2.
Proof.
  intros H. apply (f_equal base64url_decode) in H.
  rewrite !base64url_decode_nopad in H. now injection H.
Qed.

(** X11. [base64UrlEncode] loses nothing: every buffer can be read back
    from its text, so two different buffers never share an encoding. The
    text has [ceil (4 n / 3)] characters for [n] bytes, all of them
    letters, digits, [-] or [_]. *)
Theorem base64UrlEncode_lossless :
  (forall buffer, base64url_decode (base64UrlEncode buffer) = Some buffer)
  /\ (forall b1 b2, base64UrlEncode b1 = base64UrlEncode b2 -> b1 = b2)
  /\ (forall buffer,
        String.length (base64UrlEncode buffer) = ((4 * length buffer + 2) / 3)%nat)
  /\ (forall buffer, URL.all_chars is_base64url_char (base64UrlEncode buffer) = true).
Proof.
  assert (Hd : forall buffer, base64url_decode (base64UrlEncode buffer) = Some buffer)
    by (intros; rewrite base64UrlEncode_nopad; apply base64url_decode_nopad).
  split; [exact Hd|]. split.
  - intros b1 b2 H. rewrite !base64UrlEncode_nopad in H.
    now apply base64url_nopad_inj.
  - split; intros buffer; rewrite base64UrlEncode_nopad.
    + apply base64url_nopad_length.
    + apply base64url_nopad_alphabet.
Qed.

Lemma base64UrlEncode_lossless_witness :
  base64UrlEncode [x01; x02] = base64UrlEncode [x01; x02] /\ [x01; x02] = [x01; x02].
Proof.
  split; [reflexivity|].
  apply (proj1 (proj2 base64UrlEncode_lossless) [x01; x02] [x01; x02]). reflexivity.
Defined.

Lemma map_seq_ext {A} (f g : nat -> A) (n start : nat) :
  map f (seq start n) = map g (seq start n) ->
  forall i, (start <= i < start + n)%nat -> f i = g i.
Proof.
  revert start. induction n as [|n IH]; intros start H i Hi; [lia|].
  cbn [seq map] in H. injection H as H0 H.
  destruct (Nat.eq_dec i start) as [->|Hne]; [exact H0|].
  apply (IH (S start) H). lia.
Qed.

Lemma getRandomValues_ext e1 e2 n :
  getRandomValues e1 n = getRandomValues e2 n ->
  forall i, (i < n)%nat -> random_byte e1 i = random_byte e2 i.
Proof.
  unfold getRandomValues. intros H i Hi. apply (map_seq_ext _ _ n 0%nat H). lia.
Qed.

Lemma generateCodeVerifier_nopad e :
  generateCodeVerifier e = base64url_nopad (getRandomValues e 32).
Proof. unfold generateCodeVerifier. apply base64UrlEncode_nopad. Qed.

(** X12. The code verifier is 43 characters of the URL-safe alphabet,
    whatever the random source gives, and it keeps all 256 random bits:
    two draws give the same verifier only when they agree on each of the
    32 bytes. *)
Theorem generateCodeVerifier_keeps_entropy :
  (forall e, String.length (generateCodeVerifier e) = 43%nat
             /\ URL.all_chars is_base64url_char (generateCodeVerifier e) = true)
  /\ (forall e1 e2, generateCodeVerifier e1 = generateCodeVerifier e2 ->
                    forall i, (i < 32)%nat -> random_byte e1 i = random_byte e2 i).
Proof.
  split.
  - intros e. split; [apply generateCodeVerifier_length|].
    rewrite generateCodeVerifier_nopad. apply base64url_nopad_alphabet.
  - intros e1 e2 H. rewrite !generateCodeVerifier_nopad in H.
    apply base64url_nopad_inj in H. exact (getRandomValues_ext e1 e2 32 H).
Qed.

Lemma generateCodeVerifier_keeps_entropy_witness :
  random_byte zero_entropy 7 = random_byte zero_entropy 7.
Proof.
  apply (proj2 generateCodeVerifier_keeps_entropy zero_entropy zero_entropy);
    [reflexivity|lia].
Defined.

(** ** The sample data *)

Lemma In_resources_of_type type entries r :
  In r (resources_of_type type entries)
  <-> In (FHIR.MkBundleEntry (Some r)) entries /\ FHIR.resourceType r = type.
Proof.
  unfold resources_of_type. induction entries as [|[[r'|]] rest IH].
  - cbn. tauto.
  - cbn [List.filter entry_has_type FHIR.resource].
    destruct (String.eqb_spec (FHIR.resourceType r') type) as [Heq|Hne].
    + cbn [omap list_omap FHIR.resource In]. rewrite IH. split.
      * intros [->|[H1 H2]]; auto.
      * intros [[[= ->]|H1] H2]; auto.
    + rewrite IH. cbn [In]. split.
      * intros [H1 H2]; auto.
      * intros [[[= ->]|H1] H2]; [contradiction|auto].
  - cbn [List.filter entry_has_type FHIR.resource]. rewrite IH. cbn [In]. split.
    + intros [H1 H2]; auto.
    + intros [[H|H1] H2]; [discriminate|auto].
Qed.

Lemma find_entry_has_type type entries e :
  List.find (entry_has_type type) entries = Some e ->
  In e entries /\ exists r, FHIR.resource e = Some r /\ FHIR.resourceType r = type.
Proof.
  intros H. apply find_some in H as [Hin Ht]. split; [exact Hin|].
  unfold entry_has_type in Ht. destruct (FHIR.resource e) as [r|]; [|discriminate].
  exists r. split; [reflexivity|]. now apply String.eqb_eq.
Qed.

(** X14. What [getPatientData] returns. For an id other than the two of
    the map there is no result; the ids offered by [getAvailablePatients]
    are both in the map. When there is a result, its patient is a
    [Patient] resource of the bundle and each of its five lists holds
    exactly the bundle's resources of its own type, so no resource is in
    two lists. *)
Theorem getPatientData_sorts_by_type d1 d2 patientId :
  (patientId <> "patient1" -> patientId <> "patient2" ->
   getPatientData d1 d2 patientId = None)
  /\ (forall id name, In (id, name) getAvailablePatients ->
                      is_Some (patientDataMap d1 d2 !! id))
  /\ (forall result, getPatientData d1 d2 patientId = Some result ->
      exists bundle entries,
        patientDataMap d1 d2 !! patientId = Some bundle
        /\ FHIR.entry bundle = Some entries
        /\ In (FHIR.MkBundleEntry (Some (patient result))) entries
        /\ FHIR.resourceType (patient result) = "Patient"
        /\ forall r,
             let listed := fun type => In (FHIR.MkBundleEntry (Some r)) entries
                                       /\ FHIR.resourceType r = type in
             (In r (observations result) <-> listed "Observation")
             /\ (In r (conditions result) <-> listed "Condition")
             /\ (In r (allergies result) <-> listed "AllergyIntolerance")
             /\ (In r (medications result) <-> listed "MedicationRequest")
             /\ (In r (immunizations result) <-> listed "Immunization")).
Proof.
  split; [|split].
  - intros H1 H2. unfold getPatientData, patientDataMap.
    now rewrite !lookup_insert_ne, lookup_empty by congruence.
  - intros id name [[= <- <-]|[[= <- <-]|[]]]; unfold patientDataMap.
    + rewrite lookup_insert_eq. eauto.
    + rewrite lookup_insert_ne, lookup_insert_eq by discriminate. eauto.
  - intros result. unfold getPatientData.
    destruct (patientDataMap d1 d2 !! patientId) as [bundle|] eqn:Hb; [|discriminate].
    destruct (FHIR.entry bundle) as [entries|] eqn:He; [|discriminate].
    destruct (List.find _ entries) as [found|] eqn:Hf; [|discriminate].
    apply find_entry_has_type in Hf as (Hin & r & Hr & Ht).
    rewrite Hr. intros [= <-]. cbn [patient observations conditions allergies
      medications immunizations].
    exists bundle, entries. split; [reflexivity|]. split; [exact He|].
    split; [destruct found as [res]; cbn in Hr; now subst res|].
    split; [exact Ht|].
    intros r'. cbv zeta.
    do 4 (split; [apply In_resources_of_type|]). apply In_resources_of_type.
Qed.

Lemma getPatientData_sorts_by_type_witness :
  let pat := FHIR.MkResource "Patient" None "p" in
  let obs := FHIR.MkResource "Observation" None "o" in
  let d1 := FHIR.MkBundle (Some [FHIR.MkBundleEntry (Some obs);
                                 FHIR.MkBundleEntry None;
                                 FHIR.MkBundleEntry (Some pat)]) in
  getPatientData d1 (FHIR.MkBundle None) "patient3" = None
  /\ is_Some (patientDataMap d1 (FHIR.MkBundle None) !! "patient2")
  /\ getPatientData d1 (FHIR.MkBundle None) "patient1"
     = Some (MkPatientBundle pat [obs] [] [] [] [])
  /\ getPatientData d1 (FHIR.MkBundle None) "patient2" = None.
Proof.
  intros pat obs d1. split; [|split; [|split]].
  - apply (proj1 (getPatientData_sorts_by_type d1 (FHIR.MkBundle None) "patient3"));
      discriminate.
  - apply (proj1 (proj2 (getPatientData_sorts_by_type d1 (FHIR.MkBundle None) "patient3"))
             "patient2" "Dustin31 Ritchie586").
    right. left. reflexivity.
  - vm_compute. reflexivity.
  - vm_compute. reflexivity.
Defined.

Lemma vitals_lists_filters obs :
  vitals_lists (getVitalObservations obs)
  = map (fun c => List.filter (has_code c) obs) vital_codes.
Proof. reflexivity. Qed.

Lemma vital_codes_NoDup : NoDup vital_codes.
Proof. apply NoDup_ListNoDup. repeat constructor; cbn; intuition discriminate. Qed.

Lemma vitals_total_length observations :
  (length (concat (map (fun c => List.filter (has_code c) observations) vital_codes))
   <= length observations)%nat.
Proof.
  induction observations as [|o rest IH]; [cbn; lia|].
  cbn [vital_codes map concat List.filter] in *. rewrite !length_app in *.
  unfold has_code in *.
  repeat case_bool_decide; cbn [length] in *; try lia; congruence.
Qed.

(** X15. [getVitalObservations] never counts a reading twice. Each of
    the seven lists keeps the observations whose first coding has the
    list's code, in their order; an observation is in at most one list,
    and one without a first coding, or with another code, is in none; so
    the lists together are no longer than the input. *)
Theorem getVitalObservations_disjoint observations :
  let lists := vitals_lists (getVitalObservations observations) in
  (forall i j l1 l2 o,
     nth_error lists i = Some l1 -> nth_error lists j = Some l2 ->
     In o l1 -> In o l2 -> i = j)
  /\ (forall i l o,
        nth_error lists i = Some l ->
        (In o l <-> In o observations /\ nth_error (map Some vital_codes) i
                                         = Some (first_code o)))
  /\ (length (concat lists) <= length observations)%nat.
Proof.
  intros lists. subst lists. rewrite vitals_lists_filters.
  assert (Hl : forall i l o,
             nth_error (map (fun c => List.filter (has_code c) observations) vital_codes) i
             = Some l ->
             In o l <-> In o observations
                        /\ nth_error (map Some vital_codes) i = Some (first_code o)).
  { intros i l o H. rewrite nth_error_map in H. rewrite nth_error_map.
    destruct (nth_error vital_codes i) as [c|]; [|discriminate].
    injection H as <-. rewrite filter_In. unfold has_code. cbn [option_map].
    rewrite bool_decide_eq_true. split; intros [H1 H2]; split; congruence. }
  split; [|split].
  - intros i j l1 l2 o H1 H2 Ho1 Ho2.
    apply (Hl i l1 o H1) in Ho1 as [_ Hc1]. apply (Hl j l2 o H2) in Ho2 as [_ Hc2].
    rewrite nth_error_map in Hc1, Hc2.
    destruct (nth_error vital_codes i) as [c1|] eqn:E1; [|discriminate].
    destruct (nth_error vital_codes j) as [c2|] eqn:E2; [|discriminate].
    cbn in Hc1, Hc2. assert (c1 = c2) by congruence. subst c2.
    pose proof vital_codes_NoDup as Hnd. apply NoDup_ListNoDup in Hnd.
    rewrite List.NoDup_nth_error in Hnd. apply Hnd; [|congruence].
    apply nth_error_Some. congruence.
  - exact Hl.
  - apply vitals_total_length.
Qed.

Lemma getVitalObservations_disjoint_witness :
  let bp := FHIR.MkResource "Observation"
              (Some (FHIR.MkCodeableConcept
                       (Some [FHIR.MkCoding (Some "85354-9");
                              FHIR.MkCoding (Some "8867-4")]))) "bp" in
  let lists := vitals_lists (getVitalObservations [bp]) in
  nth_error lists 0 = Some [bp] /\ In bp [bp] /\ 0%nat = 0%nat.
Proof.
  intros bp lists.
  assert (H : nth_error lists 0 = Some [bp]) by (vm_compute; reflexivity).
  assert (Hin : In bp [bp]) by (left; reflexivity).
  split; [exact H|]. split; [exact Hin|].
  exact (proj1 (getVitalObservations_disjoint [bp]) 0%nat 0%nat [bp] [bp] bp H H Hin Hin).
Defined.

(** ** The patient page of the SMART session *)

Lemma truthy_false_empty (x : option string) :
  truthy x = false -> x = None \/ x = Some "".
Proof.
  destruct x as [[|c s]|]; cbn; intros H; try discriminate; auto.
Qed.


Lemma fetchPatientData_sent pf server storage :
  let options := MkMedplumClient (js_string "" (storage !! "smart_base_url")) ""
                   (Some (js_string "" (storage !! "smart_access_token"))) in
  let id := js_string "" (storage !! "smart_patient") in
  let query := [("patient", "Patient/" ++ id); ("_count", "1000")] in
  let view := fetchPatientData pf server storage in
  requests view = []
  \/ truthy (storage !! "smart_patient") = true
     /\ truthy (storage !! "smart_access_token") = true
     /\ truthy (storage !! "smart_base_url") = true
     /\ medplum_rejects pf options = None
     /\ (requests view = [ReadResource options "Patient" id]
         \/ requests view
            = ReadResource options "Patient" id
              :: map (fun type => SearchResources options type query)
                   ["Observation"; "Condition"; "AllergyIntolerance";
                    "MedicationRequest"; "Immunization"]).
Proof.
  intros options id query view. subst view. unfold fetchPatientData.
  destruct (truthy (storage !! "smart_patient")); cbn [negb]; [|now left].
  destruct (truthy (storage !! "smart_access_token")); cbn [negb orb]; [|now left].
  destruct (truthy (storage !! "smart_base_url")); cbn [negb]; [|now left].
  fold options id. unfold new_MedplumClient.
  destruct (medplum_rejects pf options) as [msg|] eqn:Hrej; [now left|].
  right. do 4 (split; [reflexivity|]).
  destruct (readResource server options "Patient" id) as [msg|pat]; [now left|].
  right. fold query.
  destruct (searchResources server options "Observation" query) as [?|?];
    destruct (searchResources server options "Condition" query) as [?|?];
    destruct (searchResources server options "AllergyIntolerance" query) as [?|?];
    destruct (searchResources server options "MedicationRequest" query) as [?|?];
    destruct (searchResources server options "Immunization" query) as [?|?];
    reflexivity.
Qed.


(** X16. The patient page contacts the server only with a complete
    session. Without a stored patient id, or without a token or a base
    URL, it sends nothing and shows the matching message; when the
    Medplum library refuses a client on the stored base URL, it sends
    nothing and shows the library's message. Every request it does send
    is made by a client built from the stored base URL and token and
    concerns the stored patient: first the read of the patient, then, if
    that succeeds, one search for each of the five resource types,
    limited to 1000. Patient data is shown only when all six requests
    have been answered, and the page is never left loading. *)
Theorem fetchPatientData_uses_stored_session pf server storage :
  let view := fetchPatientData pf server storage in
  loading view = false
  /\ (truthy (storage !! "smart_patient") = false ->
      requests view = [] /\ patientData view = None
      /\ page_error view
         = Some "No patient ID found. Please launch the app from your EHR.")
  /\ (truthy (storage !! "smart_patient") = true ->
      truthy (storage !! "smart_access_token") = false
      \/ truthy (storage !! "smart_base_url") = false ->
      requests view = [] /\ patientData view = None
      /\ page_error view
         = Some "No authentication credentials found. Please launch the app from your EHR.")
  /\ (forall msg,
        truthy (storage !! "smart_patient") = true ->
        truthy (storage !! "smart_access_token") = true ->
        truthy (storage !! "smart_base_url") = true ->
        medplum_rejects pf
          (MkMedplumClient (js_string "" (storage !! "smart_base_url")) ""
             (Some (js_string "" (storage !! "smart_access_token")))) = Some msg ->
        requests view = [] /\ patientData view = None /\ page_error view = Some msg)
  /\ (forall req, In req (requests view) ->
      exists id token base,
        storage !! "smart_patient" = Some id
        /\ storage !! "smart_access_token" = Some token
        /\ storage !! "smart_base_url" = Some base
        /\ (req = ReadResource (MkMedplumClient base "" (Some token)) "Patient" id
            \/ exists type,
                 In type ["Observation"; "Condition"; "AllergyIntolerance";
                          "MedicationRequest"; "Immunization"]
                 /\ req = SearchResources (MkMedplumClient base "" (Some token)) type
                            [("patient", "Patient/" ++ id); ("_count", "1000")]))
  /\ (is_Some (patientData view) ->
      page_error view = None /\ length (requests view) = 6%nat).
Proof.
  intros view. split; [|split; [|split; [|split; [|split]]]].
  - subst view. unfold fetchPatientData.
    destruct (truthy (storage !! "smart_patient")); cbn [negb]; [|reflexivity].
    destruct (_ || _); [reflexivity|].
    destruct (new_MedplumClient pf _) as [?|client]; [reflexivity|].
    destruct (readResource server client "Patient" _) as [?|?]; [reflexivity|].
    destruct (searchResources server client "Observation" _) as [?|?];
      destruct (searchResources server client "Condition" _) as [?|?];
      destruct (searchResources server client "AllergyIntolerance" _) as [?|?];
      destruct (searchResources server client "MedicationRequest" _) as [?|?];
      destruct (searchResources server client "Immunization" _) as [?|?];
      reflexivity.
  - intros Hp. subst view. unfold fetchPatientData. rewrite Hp. repeat split.
  - intros Hp Htb. subst view. unfold fetchPatientData. rewrite Hp. cbn [negb].
    destruct Htb as [->| ->]; cbn [negb orb]; rewrite ?orb_true_r; repeat split.
  - intros msg Hp Ht Hb Hrej. subst view. unfold fetchPatientData.
    rewrite Hp, Ht, Hb. cbn [negb orb]. unfold new_MedplumClient. rewrite Hrej.
    repeat split.
  - intros req Hin.
    destruct (fetchPatientData_sent pf server storage) as [Hnil|(Hp & Ht & Hb & _ & Hs)];
      fold view in Hnil || fold view in Hs; [rewrite Hnil in Hin; destruct Hin|].
    exists (js_string "" (storage !! "smart_patient")),
           (js_string "" (storage !! "smart_access_token")),
           (js_string "" (storage !! "smart_base_url")).
    split; [exact (truthy_Some _ Hp)|]. split; [exact (truthy_Some _ Ht)|].
    split; [exact (truthy_Some _ Hb)|].
    destruct Hs as [Hs|Hs]; rewrite Hs in Hin.
    + destruct Hin as [<-|[]]. now left.
    + destruct Hin as [<-|Hin]; [now left|]. right.
      apply in_map_iff in Hin as (type & <- & Hin). now exists type.
  - subst view. unfold fetchPatientData.
    destruct (truthy (storage !! "smart_patient")); cbn [negb];
      [|intros [? ?]; discriminate].
    destruct (_ || _); [intros [? ?]; discriminate|].
    destruct (new_MedplumClient pf _) as [?|client]; [intros [? ?]; discriminate|].
    destruct (readResource server client "Patient" _) as [?|?];
      [intros [? ?]; discriminate|].
    destruct (searchResources server client "Observation" _) as [?|?];
      destruct (searchResources server client "Condition" _) as [?|?];
      destruct (searchResources server client "AllergyIntolerance" _) as [?|?];
      destruct (searchResources server client "MedicationRequest" _) as [?|?];
      destruct (searchResources server client "Immunization" _) as [?|?];
      first [ intros [? ?]; discriminate | intros _; split; reflexivity ].
Qed.

Lemma fetchPatientData_uses_stored_session_witness :
  let server := MkFhirServer
                  (fun _ _ _ => inr (FHIR.MkResource "Patient" None "p"))
                  (fun _ _ _ => inr [])
                  (fun _ => "rejected") in
  requests (fetchPatientData browser server session_store) = []
  /\ patientData (fetchPatientData browser server session_store) = None
  /\ page_error (fetchPatientData browser server session_store)
     = Some "No authentication credentials found. Please launch the app from your EHR.".
Proof.
  intros server.
  apply (proj1 (proj2 (proj2
           (fetchPatientData_uses_stored_session browser server session_store)))).
  - vm_compute. reflexivity.
  - right. vm_compute. reflexivity.
Defined.



(** A token response without an [access_token] still takes the page to
    the dashboard. The client installed there has no token, and the
    patient page then asks the server as the bearer of the text
    [undefined]. *)
Example token_response_without_token :
  let env := page [("code", "abc"); ("state", "expected-state")]
                  (token_answer (JObject (list_to_map [("patient", "pat1")]))) in
  let server := MkFhirServer
                  (fun _ _ _ => inr (FHIR.MkResource "Patient" None "p"))
                  (fun _ _ _ => inr [])
                  (fun _ => "rejected") in
  let w := launchEffect browser env (pageLoad in_flight_store) in
  navigations (trace w) = ["/patient"]
  /\ medplum w = Some (MkMedplumClient "https://ehr.example.org" "" None)
  /\ sessionStorage w !! "smart_access_token" = Some "undefined"
  /\ head (requests (fetchPatientData browser server (sessionStorage w)))
     = Some (ReadResource (MkMedplumClient "https://ehr.example.org" "" (Some "undefined"))
               "Patient" "pat1").
Proof. cbv zeta. repeat split; vm_compute; reflexivity. Qed.
